(** * Skill validation and packaging: [quick_validate.js] and [package_skill.js]

    A shallow embedding of the two scripts of [skills/skill-creator/scripts]
    that form the validation-and-packaging pipeline, and the properties of
    the specification checked against them.

    JavaScript strings are sequences of UTF-16 code units; they are modelled
    as lists of code units ([N]), so that [length] is the [.length] of the
    source.  The frontmatter object is a finite map from strings to strings.
    File-system reads, console output, [mkdir] and the shelled-out archiver
    are threaded through an explicit world in a small state-and-rejection
    monad. *)

From Stdlib Require Import NArith Ascii String DecimalString Sorted Permutation.
From stdpp Require Import gmap list fin_maps.

Local Open Scope N_scope.
Local Open Scope nat_scope.

(** ** JavaScript strings *)

Module JsString.

(** A string literal of the source (ASCII only), one code unit per
    character. *)
Definition chr (a : ascii) : N := N_of_ascii a.
Definition js (s : string) : list N := chr <$> list_ascii_of_string s.

(** The line feed, written ['\n'] in the source. *)
Definition LF : N := 10%N.

(** [s.startsWith(p)] *)
Fixpoint startsWith (s p : list N) : bool :=
  match p, s with
  | [], _ => true
  | _ :: _, [] => false
  | a :: p', b :: s' => if N.eqb a b then startsWith s' p' else false
  end.

(** [s.endsWith(p)] *)
Definition endsWith (s p : list N) : bool :=
  startsWith (reverse s) (reverse p).

(** [s.includes(p)] *)
Fixpoint includes (s p : list N) : bool :=
  startsWith s p ||
  match s with
  | [] => false
  | _ :: s' => includes s' p
  end.

(** White space and line terminators of ECMAScript, the code units that
    [String.prototype.trim] removes. *)
Definition isWhiteSpace (c : N) : bool :=
  ((9 <=? c) && (c <=? 13))%N          (* TAB LF VT FF CR *)
  || (c =? 32)%N || (c =? 160)%N       (* SP NBSP *)
  || (c =? 5760)%N                     (* U+1680 *)
  || ((8192 <=? c) && (c <=? 8202))%N  (* U+2000 .. U+200A *)
  || (c =? 8232)%N || (c =? 8233)%N    (* LS PS *)
  || (c =? 8239)%N || (c =? 8287)%N    (* U+202F U+205F *)
  || (c =? 12288)%N || (c =? 65279)%N. (* U+3000 U+FEFF *)

Fixpoint trimStart (s : list N) : list N :=
  match s with
  | [] => []
  | c :: s' => if isWhiteSpace c then trimStart s' else s
  end.

Definition trimEnd (s : list N) : list N := reverse (trimStart (reverse s)).

(** [s.trim()] *)
Definition trim (s : list N) : list N := trimEnd (trimStart s).

(** [s.split(sep)] for a separator of one code unit: never empty, and one
    more piece than there are separators. *)
Fixpoint split (sep : N) (s : list N) : list (list N) :=
  match s with
  | [] => [[]]
  | c :: s' =>
      if N.eqb c sep then [] :: split sep s'
      else match split sep s' with
           | piece :: rest => (c :: piece) :: rest
           | [] => [[c]]
           end
  end.

(** [parts.join(sep)] *)
Fixpoint join (sep : list N) (parts : list (list N)) : list N :=
  match parts with
  | [] => []
  | [p] => p
  | p :: rest => p ++ sep ++ join sep rest
  end.

(** [s.slice(1, -1)]: from index 1 up to, not including, the last code
    unit; empty when the string has fewer than two code units. *)
Definition slice_1_m1 (s : list N) : list N :=
  take (length s - 1 - 1) (drop 1 s).

(** Decimal rendering of a length inside a template literal. *)
Definition decimal (n : nat) : list N :=
  js (NilZero.string_of_uint (Nat.to_uint n)).

(** Comparison of [Array.prototype.sort] without a comparator: code unit
    by code unit, a proper prefix first. *)
Fixpoint code_unit_leb (a b : list N) : bool :=
  match a, b with
  | [], _ => true
  | _ :: _, [] => false
  | x :: a', y :: b' =>
      if N.ltb x y then true
      else if N.eqb x y then code_unit_leb a' b' else false
  end.

Fixpoint sort_insert (x : list N) (l : list (list N)) : list (list N) :=
  match l with
  | [] => [x]
  | y :: l' => if code_unit_leb x y then x :: l else y :: sort_insert x l'
  end.

(** [arr.sort()] on an array of strings. *)
Definition sort (l : list (list N)) : list (list N) :=
  foldr sort_insert [] l.

End JsString.
Import JsString.

(** ** The host: file system, console, child processes *)

Module Host.

(** What a path names.  A file that exists but cannot be read carries the
    [message] of the error that [readFile] rejects with. *)
Inductive node :=
| Directory
| RegularFile (content : list N)
| UnreadableFile (reason : list N).

(** Observable actions, in program order. *)
Inductive event :=
| ConsoleLog (line : list N)
| ConsoleError (line : list N)
| MkdirRecursive (dir : list N)   (* fs.mkdir(dir, { recursive: true }) *)
| Exec (cmd : list N).            (* child_process.exec(cmd) *)

Record world := World {
  files : gmap (list N) node;
  trace : list event
}.

(** Node's [path] module, [process.cwd()], and the two calls that change
    the file system.  Each of the latter answers with the message of its
    rejection, if any, and the file table it leaves behind. *)
Class HostApi := {
  path_resolve : list N → list N;
  path_join : list N → list N → list N;
  path_basename : list N → list N;
  path_dirname : list N → list N;
  process_cwd : list N;
  fs_mkdir_recursive :
    list N → gmap (list N) node → option (list N) * gmap (list N) node;
  child_process_exec :
    list N → gmap (list N) node → option (list N) * gmap (list N) node
}.

(** An awaited promise either fulfils or rejects (a [throw]). *)
Inductive outcome (A : Type) :=
| Fulfilled (a : A)
| Rejected (reason : list N).
Arguments Fulfilled {A} a.
Arguments Rejected {A} reason.

Definition IO (A : Type) : Type := world → outcome A * world.

Definition io_ret {A} (a : A) : IO A := λ w, (Fulfilled a, w).

Definition io_bind {A B} (m : IO A) (k : A → IO B) : IO B :=
  λ w, match m w with
       | (Fulfilled a, w') => k a w'
       | (Rejected e, w') => (Rejected e, w')
       end.

(** [try { m } catch (e) { ... }]: the rejection becomes a value. *)
Definition io_try {A} (m : IO A) : IO (outcome A) :=
  λ w, let '(r, w') := m w in (Fulfilled r, w').

Definition emit (e : event) : IO unit :=
  λ w, (Fulfilled tt, World (files w) (trace w ++ [e])).

Definition console_log (line : list N) : IO unit := emit (ConsoleLog line).
Definition console_error (line : list N) : IO unit := emit (ConsoleError line).

(** [fs.existsSync(p)] *)
Definition existsSync (p : list N) : IO bool :=
  λ w, (Fulfilled (bool_decide (is_Some (files w !! p))), w).

(** [fs.statSync(p).isDirectory()] *)
Definition isDirectory (p : list N) : IO bool :=
  λ w, match files w !! p with
       | Some Directory => (Fulfilled true, w)
       | Some _ => (Fulfilled false, w)
       | None => (Rejected (js "ENOENT: no such file or directory"), w)
       end.

(** [readFile(p, 'utf8')], the content already decoded. *)
Definition readFile (p : list N) : IO (list N) :=
  λ w, match files w !! p with
       | Some (RegularFile content) => (Fulfilled content, w)
       | Some (UnreadableFile reason) => (Rejected reason, w)
       | Some Directory =>
           (Rejected (js "EISDIR: illegal operation on a directory, read"), w)
       | None => (Rejected (js "ENOENT: no such file or directory"), w)
       end.

Section WithHost.
Context `{HostApi}.

Definition mkdir_recursive (dir : list N) : IO unit :=
  λ w, let '(err, fs') := fs_mkdir_recursive dir (files w) in
       let w' := World fs' (trace w ++ [MkdirRecursive dir]) in
       match err with
       | None => (Fulfilled tt, w')
       | Some e => (Rejected e, w')
       end.

Definition execAsync (cmd : list N) : IO unit :=
  λ w, let '(err, fs') := child_process_exec cmd (files w) in
       let w' := World fs' (trace w ++ [Exec cmd]) in
       match err with
       | None => (Fulfilled tt, w')
       | Some e => (Rejected e, w')
       end.
End WithHost.

End Host.
Import Host.

Notation "x ←ᵢ m ; k" := (io_bind m (λ x, k))
  (at level 20, m at level 100, k at level 200, right associativity,
   format "x  ←ᵢ  m ;  '/' k").
Notation "m ;;ᵢ k" := (io_bind m (λ _, k))
  (at level 100, k at level 200, right associativity).

(** ** [quick_validate.js] *)

Module QuickValidate.

(** The value [validateSkill] returns: [{ valid, message }]. *)
Record ValidationResult := Result {
  valid : bool;
  message : list N
}.

Definition failure (msg : list N) : ValidationResult := Result false msg.

(** *** Frontmatter extraction (lines 29-41) *)

(** [([\s\S]*?)] followed by [delim]: the lazy group takes as few code
    units as lets the rest of the pattern match, so the delimiter is tried
    at every position from the left. *)
Fixpoint lazy_until (delim s : list N) : option (list N) :=
  if startsWith s delim then Some []
  else match s with
       | [] => None
       | c :: s' => (c ::.) <$> lazy_until delim s'
       end.

Definition OPENING : list N := js "---" ++ [LF].   (* ^---\n *)
Definition CLOSING : list N := LF :: js "---".     (* \n--- *)

(** [content.match(/^---\n([\s\S]*?)\n---/)], giving [match[1]].  Without
    the [m] flag [^] is the start of the text. *)
Definition match_frontmatter (content : list N) : option (list N) :=
  if startsWith content OPENING
  then lazy_until CLOSING (drop (length OPENING) content)
  else None.

(** *** The frontmatter object (lines 46-65) *)

Definition PROTO : list N := js "__proto__".

(** [frontmatter[key] = value] on an object created by [{}], for a string
    [value].  The property [__proto__] is an accessor inherited from
    [Object.prototype] whose setter ignores a value that is neither an
    object nor [null]; every other key becomes, or overwrites, an own
    property. *)
Definition assign (key value : list N) (frontmatter : gmap (list N) (list N))
  : gmap (list N) (list N) :=
  if bool_decide (key = PROTO) then frontmatter
  else <[key := value]> frontmatter.

Definition QUOT : list N := [34%N].   (* the double quote *)
Definition APOS : list N := js "'".   (* the single quote *)

(** Lines 58-61, "Handle quoted strings". *)
Definition unquote (value : list N) : list N :=
  if (startsWith value QUOT && endsWith value QUOT)
     || (startsWith value APOS && endsWith value APOS)
  then slice_1_m1 value
  else value.

(** The body of the [for] loop over the lines of the block. *)
Definition parse_line (frontmatter : gmap (list N) (list N)) (line : list N)
  : gmap (list N) (list N) :=
  if bool_decide (trim line = []) || startsWith (trim line) (js "#")
  then frontmatter                                        (* continue *)
  else
    let parts := split (chr ":") line in
    if bool_decide (2 ≤ length parts) then
      let key := trim (default [] (head parts)) in
      let value := trim (join (js ":") (drop 1 parts)) in
      assign key (unquote value) frontmatter
    else frontmatter.

Definition parse_frontmatter (frontmatterText : list N)
  : gmap (list N) (list N) :=
  foldl parse_line ∅ (split LF frontmatterText).

(** *** The rules (lines 67-110) *)

Definition ALLOWED_PROPERTIES : list (list N) :=
  [js "name"; js "description"; js "license"; js "allowed-tools";
   js "metadata"].

(** [Object.keys(frontmatter)].  The order of the keys is not the one of
    the source; the one use of the array sorts it. *)
Definition keys (frontmatter : gmap (list N) (list N)) : list (list N) :=
  (map_to_list frontmatter).*1.

Definition unexpectedKeys (frontmatter : gmap (list N) (list N))
  : list (list N) :=
  filter (λ k, k ∉ ALLOWED_PROPERTIES) (keys frontmatter).

Definition unexpected_message (unexpected : list (list N)) : list N :=
  js "Unexpected key(s) in SKILL.md frontmatter: "
  ++ join (js ", ") (sort unexpected)
  ++ js ". Allowed properties are: "
  ++ join (js ", ") (sort ALLOWED_PROPERTIES).

(** [!frontmatter[key]]: the property is absent ([undefined]) or the empty
    string. *)
Definition falsy (v : option (list N)) : bool :=
  match v with
  | None | Some [] => true
  | Some (_ :: _) => false
  end.

(** [/^[a-z0-9-]+$/.test(name)] *)
Definition hyphen_case_char (c : N) : bool :=
  ((97 <=? c) && (c <=? 122))%N || ((48 <=? c) && (c <=? 57))%N
  || (c =? 45)%N.

Definition hyphen_case (name : list N) : bool :=
  match name with
  | [] => false
  | _ :: _ => forallb hyphen_case_char name
  end.

(** Lines 67-110: the rules on the parsed frontmatter, in the order of
    the source, each returning at once. *)
Definition check_frontmatter (frontmatter : gmap (list N) (list N))
  : ValidationResult :=
  match unexpectedKeys frontmatter with
  | (_ :: _) as unexpected => failure (unexpected_message unexpected)
  | [] =>
  if falsy (frontmatter !! js "name") then
    failure (js "Missing 'name' in frontmatter")
  else if falsy (frontmatter !! js "description") then
    failure (js "Missing 'description' in frontmatter")
  else
    let name := default [] (frontmatter !! js "name") in
    if negb (hyphen_case name) then
      failure (js "Name '" ++ name
               ++ js "' should be hyphen-case (lowercase letters, digits, and hyphens only)")
    else if startsWith name (js "-") || endsWith name (js "-")
            || includes name (js "--") then
      failure (js "Name '" ++ name
               ++ js "' cannot start/end with hyphen or contain consecutive hyphens")
    else if bool_decide (64 < length name) then
      failure (js "Name is too long (" ++ decimal (length name)
               ++ js " characters). Maximum is 64 characters.")
    else
      let description := default [] (frontmatter !! js "description") in
      if includes description (js "<") || includes description (js ">") then
        failure (js "Description cannot contain angle brackets (< or >)")
      else if bool_decide (1024 < length description) then
        failure (js "Description is too long (" ++ decimal (length description)
                 ++ js " characters). Maximum is 1024 characters.")
      else Result true (js "Skill is valid!")
  end.

(** Lines 29-110: what [validateSkill] does with the text it has read. *)
Definition validate_content (content : list N) : ValidationResult :=
  if negb (startsWith content (js "---")) then
    failure (js "No YAML frontmatter found")
  else
    match match_frontmatter content with
    | None => failure (js "Invalid frontmatter format")
    | Some frontmatterText =>
        check_frontmatter (parse_frontmatter frontmatterText)
    end.

Section WithHost.
Context `{HostApi}.

(** Lines 13-16: the path of the manifest of a skill. *)
Definition skillMdPath (skillPath : list N) : list N :=
  let skillPath := path_resolve skillPath in
  path_join skillPath (js "SKILL.md").

(** [async function validateSkill(skillPath)] *)
Definition validateSkill (skillPath : list N) : IO ValidationResult :=
  let skillMdPath := skillMdPath skillPath in
  found ←ᵢ existsSync skillMdPath;
  if negb found then io_ret (failure (js "SKILL.md not found"))
  else
    read ←ᵢ io_try (readFile skillMdPath);
    match read with
    | Rejected e => io_ret (failure (js "Could not read SKILL.md: " ++ e))
    | Fulfilled content => io_ret (validate_content content)
    end.
End WithHost.

(** The result of [validateSkill] as a function of what the manifest path
    names in the file table (lemma [validateSkill_run] below). *)
Definition manifest_verdict (manifest : option node) : ValidationResult :=
  match manifest with
  | None => failure (js "SKILL.md not found")
  | Some (RegularFile content) => validate_content content
  | Some (UnreadableFile reason) =>
      failure (js "Could not read SKILL.md: " ++ reason)
  | Some Directory =>
      failure (js "Could not read SKILL.md: "
               ++ js "EISDIR: illegal operation on a directory, read")
  end.

End QuickValidate.
Import QuickValidate.

(** ** [package_skill.js] *)

Module PackageSkill.

Definition CROSS_MARK : list N := [10060%N].            (* U+274C *)
Definition CHECK_MARK : list N := [9989%N].             (* U+2705 *)
Definition MAGNIFIER : list N := [55357%N; 56589%N].    (* U+1F50D *)

Section WithHost.
Context `{HostApi}.

(** [outputDir] is tested for truthiness: [null] and the empty string
    both select the current working directory. *)
Definition truthy (outputDir : option (list N)) : option (list N) :=
  match outputDir with
  | Some ((_ :: _) as dir) => Some dir
  | _ => None
  end.

(** Lines 53-61, "Determine output location". *)
Definition resolve_output (outputDir : option (list N)) : IO (list N) :=
  match truthy outputDir with
  | Some dir =>
      let outputPath := path_resolve dir in
      mkdir_recursive outputPath ;;ᵢ io_ret outputPath
  | None => io_ret process_cwd
  end.

(** The command line of line 83. *)
Definition zip_command (skillPath skillFilename : list N) : list N :=
  let parentDir := path_dirname skillPath in
  let targetName := path_basename skillPath in
  js "cd " ++ QUOT ++ parentDir ++ QUOT ++ js " && zip -r "
  ++ QUOT ++ skillFilename ++ QUOT ++ js " " ++ QUOT ++ targetName ++ QUOT.

(** The [try] block of lines 66-90. *)
Definition create_archive (skillPath skillFilename : list N)
  : IO (option (list N)) :=
  let cmd := zip_command skillPath skillFilename in
  console_log (js "Executing: " ++ cmd) ;;ᵢ
  execAsync cmd ;;ᵢ
  console_log (LF :: CHECK_MARK ++ js " Successfully packaged skill to: "
               ++ skillFilename) ;;ᵢ
  io_ret (Some skillFilename).

(** [async function packageSkill(skillPath, outputDir = null)]; [None] is
    the [null] it returns on failure. *)
Definition packageSkill (skillPath : list N) (outputDir : option (list N))
  : IO (option (list N)) :=
  let skillPath := path_resolve skillPath in
  found ←ᵢ existsSync skillPath;
  if negb found then
    console_error (CROSS_MARK ++ js " Error: Skill folder not found: "
                   ++ skillPath) ;;ᵢ
    io_ret None
  else
    isDir ←ᵢ isDirectory skillPath;
    if negb isDir then
      console_error (CROSS_MARK ++ js " Error: Path is not a directory: "
                     ++ skillPath) ;;ᵢ
      io_ret None
    else
      let skillMd := path_join skillPath (js "SKILL.md") in
      mdFound ←ᵢ existsSync skillMd;
      if negb mdFound then
        console_error (CROSS_MARK ++ js " Error: SKILL.md not found in "
                       ++ skillPath) ;;ᵢ
        io_ret None
      else
        console_log (MAGNIFIER ++ js " Validating skill...") ;;ᵢ
        result ←ᵢ validateSkill skillPath;
        if negb (valid result) then
          console_error (CROSS_MARK ++ js " Validation failed: "
                         ++ message result) ;;ᵢ
          console_error (js "   Please fix the validation errors before packaging.") ;;ᵢ
          io_ret None
        else
          console_log (CHECK_MARK ++ js " " ++ message result ++ [LF]) ;;ᵢ
          let skillName := path_basename skillPath in
          outputPath ←ᵢ resolve_output outputDir;
          let skillFilename :=
            path_join outputPath (skillName ++ js ".skill") in
          attempt ←ᵢ io_try (create_archive skillPath skillFilename);
          match attempt with
          | Fulfilled r => io_ret r
          | Rejected e =>
              console_error (CROSS_MARK ++ js " Error creating .skill file: "
                             ++ e) ;;ᵢ
              io_ret None
          end.
End WithHost.

End PackageSkill.
Import PackageSkill.

(** ** A host for the examples

    Absolute POSIX paths without [.] or [..] segments, a fixed working
    directory, a [mkdir] that records the directory and an archiver that
    writes its target.  It stands in for Node only where a statement is
    evaluated on a concrete input. *)

Module ExampleHost.

Definition SLASH : N := chr "/".

Definition resolve (p : list N) : list N :=
  if startsWith p [SLASH] then p else js "/work/" ++ p.

Definition basename (p : list N) : list N :=
  default [] (last (split SLASH p)).

Definition dirname (p : list N) : list N :=
  take (length p - length (basename p) - 1) p.

#[export] Instance host : HostApi := {|
  path_resolve := resolve;
  path_join a b := a ++ SLASH :: b;
  path_basename := basename;
  path_dirname := dirname;
  process_cwd := js "/work";
  fs_mkdir_recursive dir fs := (None, <[dir := Directory]> fs);
  child_process_exec cmd fs := (None, fs)
|}.

(** A world in which [/skills/demo] is a skill directory whose [SKILL.md]
    has the given content. *)
Definition skill_world (content : list N) : world :=
  World (<[js "/skills/demo/SKILL.md" := RegularFile content]>
         (<[js "/skills/demo" := Directory]> ∅)) [].

(** The same directory without a manifest. *)
Definition bare_directory_world : world :=
  World (<[js "/skills/demo" := Directory]> ∅) [].

(** A manifest from its lines, each ended by a line feed. *)
Definition text (lines : list string) : list N :=
  concat ((λ l, js l ++ [LF]) <$> lines).

End ExampleHost.

(** ** The specification's vocabulary

    Definitions written after the words of the specification, to be compared
    with the ones above that follow the source. *)

Module Spec.

(** "must begin with a line consisting of exactly the 3-character
    delimiter": the first line of the text is [---]. *)
Definition begins_with_delimiter_line (content : list N) : Prop :=
  head (split LF content) = Some (js "---").

#[export] Instance begins_with_delimiter_line_dec content :
  Decision (begins_with_delimiter_line content).
Proof. unfold begins_with_delimiter_line. apply _. Defined.

(** "a closing delimiter line is found after the opening one": some later
    line is exactly [---]. *)
Definition closing_delimiter_line_found (content : list N) : Prop :=
  js "---" ∈ drop 1 (split LF content).

#[export] Instance closing_delimiter_line_found_dec content :
  Decision (closing_delimiter_line_found content).
Proof. unfold closing_delimiter_line_found. apply _. Defined.

(** "[name] matches [^[a-z0-9-]+$]". *)
Definition name_char (c : N) : Prop :=
  (97 ≤ c ≤ 122)%N ∨ (48 ≤ c ≤ 57)%N ∨ c = 45%N.

Definition HYPHEN : N := 45%N.

(** Rules 7 to 9 on the value of [name]. *)
Definition name_well_formed (name : list N) : Prop :=
  (name ≠ [] ∧ Forall name_char name)
  ∧ head name ≠ Some HYPHEN
  ∧ last name ≠ Some HYPHEN
  ∧ (¬ ∃ a b, name = a ++ [HYPHEN; HYPHEN] ++ b)
  ∧ length name ≤ 64.

(** Rules 10 and 11 on the value of [description]. *)
Definition description_well_formed (description : list N) : Prop :=
  (chr "<" ∉ description) ∧ (chr ">" ∉ description)
  ∧ length description ≤ 1024.

(** "A value wholly wrapped in a single matching pair of quote
    characters has the quotes stripped": an opening quote, the text, and
    the same quote again. *)
Definition strip_quotes (value : list N) : list N :=
  match value with
  | q :: rest =>
      match reverse rest with
      | q' :: inner =>
          if bool_decide (q = q' ∧ (q = 34%N ∨ q = 39%N))
          then reverse inner else value
      | [] => value
      end
  | [] => value
  end.

(** "Each remaining line is split on the first colon". *)
Fixpoint split_first_colon (line : list N) : option (list N * list N) :=
  match line with
  | [] => None
  | c :: line' =>
      if N.eqb c (chr ":") then Some ([], line')
      else prod_map (c ::.) id <$> split_first_colon line'
  end.

Definition header_line (header : gmap (list N) (list N)) (line : list N)
  : gmap (list N) (list N) :=
  if bool_decide (trim line = []) || startsWith (trim line) (js "#")
  then header
  else match split_first_colon line with
       | None => header
       | Some (field, value) =>
           <[trim field := strip_quotes (trim value)]> header
       end.

(** HeaderParser of section 4.1 on a header block: a later line with the
    same field name overwrites an earlier one. *)
Definition parse_header (block : list N) : gmap (list N) (list N) :=
  foldl header_line ∅ (split LF block).

(** The eleven rules of section 4.2, in the order of the specification. *)
Inductive rule :=
| ManifestExists | ManifestReadable | HeaderParseable | AllowList
| NamePresent | DescriptionPresent | NameCharset | NameHyphenPlacement
| NameLength | DescriptionAngleBrackets | DescriptionLength.

Definition RULE_ORDER : list rule :=
  [ManifestExists; ManifestReadable; HeaderParseable; AllowList;
   NamePresent; DescriptionPresent; NameCharset; NameHyphenPlacement;
   NameLength; DescriptionAngleBrackets; DescriptionLength].

Definition manifest_content (manifest : option node) : option (list N) :=
  match manifest with
  | Some (RegularFile content) => Some content
  | _ => None
  end.

(** "header body follows until a line consisting of the same delimiter":
    the lines before the first line that is [---]. *)
Fixpoint lines_until_delimiter (lines : list (list N))
  : option (list (list N)) :=
  match lines with
  | [] => None
  | line :: rest =>
      if bool_decide (line = js "---") then Some []
      else (line ::.) <$> lines_until_delimiter rest
  end.

(** The header block of a manifest: the lines between the opening delimiter
    line and the closing one. *)
Definition header_block (content : list N) : option (list N) :=
  if bool_decide (begins_with_delimiter_line content)
  then join [LF] <$> lines_until_delimiter (drop 1 (split LF content))
  else None.

(** The Header of section 3, parsed as section 4.1 says. *)
Definition manifest_header (manifest : option node)
  : option (gmap (list N) (list N)) :=
  content ← manifest_content manifest;
  parse_header <$> header_block content.

Definition name_of (h : gmap (list N) (list N)) : list N :=
  default [] (h !! js "name").
Definition description_of (h : gmap (list N) (list N)) : list N :=
  default [] (h !! js "description").

(** "Any other field name present": the field names of the header that
    are not in the allow-list. *)
Definition unexpected_fields (header : gmap (list N) (list N))
  : list (list N) :=
  filter (λ field, field ∉ ALLOWED_PROPERTIES) (keys header).

(** The message of a rule of section 4.2 when the manifest violates it,
    each rule judged on its own by the words of the specification: a rule
    about the header is not violated by a manifest that has no header, and
    a rule about the value of a field is not violated by a header without
    that field.  The header is the one of section 4.1, rule 3 looks for the
    delimiter lines, and rules 5 and 6 ask whether the field is present.
    Where the specification words a message, that is the message; the
    others have the text the source prints. *)
Definition violation (manifest : option node) (r : rule)
  : option (list N) :=
  match r with
  | ManifestExists =>
      match manifest with
      | None => Some (js "SKILL.md not found")
      | Some _ => None
      end
  | ManifestReadable =>
      match manifest with
      | Some Directory =>
          Some (js "Could not read SKILL.md: "
                ++ js "EISDIR: illegal operation on a directory, read")
      | Some (UnreadableFile reason) =>
          Some (js "Could not read SKILL.md: " ++ reason)
      | _ => None
      end
  | HeaderParseable =>
      content ← manifest_content manifest;
      if bool_decide (begins_with_delimiter_line content) then
        if bool_decide (closing_delimiter_line_found content) then None
        else Some (js "Invalid frontmatter format")
      else Some (js "No YAML frontmatter found")
  | AllowList =>
      h ← manifest_header manifest;
      match unexpected_fields h with
      | [] => None
      | _ :: _ => Some (unexpected_message (unexpected_fields h))
      end
  | NamePresent =>
      h ← manifest_header manifest;
      match h !! js "name" with
      | None => Some (js "Missing 'name' in frontmatter")
      | Some _ => None
      end
  | DescriptionPresent =>
      h ← manifest_header manifest;
      match h !! js "description" with
      | None => Some (js "Missing 'description' in frontmatter")
      | Some _ => None
      end
  | NameCharset =>
      h ← manifest_header manifest;
      name ← h !! js "name";
      if bool_decide (name ≠ [] ∧ Forall name_char name) then None
      else Some (js "Name '" ++ name
                 ++ js "' should be hyphen-case (lowercase letters, digits, and hyphens only)")
  | NameHyphenPlacement =>
      h ← manifest_header manifest;
      name ← h !! js "name";
      if bool_decide (head name = Some HYPHEN ∨ last name = Some HYPHEN)
         || includes name [HYPHEN; HYPHEN]
      then Some (js "Name '" ++ name
                 ++ js "' cannot start/end with hyphen or contain consecutive hyphens")
      else None
  | NameLength =>
      h ← manifest_header manifest;
      name ← h !! js "name";
      if bool_decide (64 < length name)
      then Some (js "Name is too long (" ++ decimal (length name)
                 ++ js " characters). Maximum is 64 characters.")
      else None
  | DescriptionAngleBrackets =>
      h ← manifest_header manifest;
      description ← h !! js "description";
      if bool_decide (chr "<" ∈ description ∨ chr ">" ∈ description)
      then Some (js "Description cannot contain angle brackets (< or >)")
      else None
  | DescriptionLength =>
      h ← manifest_header manifest;
      description ← h !! js "description";
      if bool_decide (1024 < length description)
      then Some (js "Description is too long ("
                 ++ decimal (length description)
                 ++ js " characters). Maximum is 1024 characters.")
      else None
  end.

(** "Rules are evaluated in a fixed order; the function returns
    immediately at the first violation": the verdict of a validator that
    walks the rules in order and stops at the first one violated. *)
Definition first_violation (manifest : option node) : ValidationResult :=
  match head (omap (violation manifest) RULE_ORDER) with
  | Some msg => failure msg
  | None => Result true (js "Skill is valid!")
  end.

(** "sorted lexicographically": the order of [Array.prototype.sort]. *)
Definition code_unit_le (a b : list N) : Prop := code_unit_leb a b = true.

End Spec.
Import Spec.

(** ** The command lines of [quick_validate.js] and [package_skill.js]

    [process.exit(code)] ends the program: each [main] is modelled as the
    task that yields the exit code, [args] being [process.argv.slice(2)]. *)

Module QuickValidateMain.
Section WithHost.
Context `{HostApi}.

(** [async function main()] of [quick_validate.js], lines 113-123. *)
Definition main (args : list (list N)) : IO N :=
  if negb (bool_decide (length args = 1)) then
    console_log (js "Usage: node quick_validate.js <skill_directory>") ;;ᵢ
    io_ret 1%N
  else
    result ←ᵢ validateSkill (default [] (head args));
    console_log (message result) ;;ᵢ
    io_ret (if valid result then 0%N else 1%N).

End WithHost.
End QuickValidateMain.

Module PackageSkillMain.

Definition PACKAGE : list N := [55357%N; 56550%N].   (* U+1F4E6 *)

Section WithHost.
Context `{HostApi}.

(** [args[1] || null] *)
Definition outputDir_of (args : list (list N)) : option (list N) :=
  truthy (args !! 1).

(** [async function main()] of [package_skill.js], lines 97-123.  The
    result of [packageSkill] is tested for truthiness. *)
Definition main (args : list (list N)) : IO N :=
  if bool_decide (length args < 1) then
    console_log (js "Usage: node package_skill.js <path/to/skill-folder> [output-directory]") ;;ᵢ
    console_log (LF :: js "Example:") ;;ᵢ
    console_log (js "  node package_skill.js .agent/skills/my-skill") ;;ᵢ
    console_log (js "  node package_skill.js .agent/skills/my-skill ./dist") ;;ᵢ
    io_ret 1%N
  else
    let skillPath := default [] (head args) in
    let outputDir := outputDir_of args in
    console_log (PACKAGE ++ js " Packaging skill: " ++ skillPath) ;;ᵢ
    match outputDir with
    | Some dir => console_log (js "   Output directory: " ++ dir)
    | None => io_ret tt
    end ;;ᵢ
    console_log [] ;;ᵢ
    result ←ᵢ packageSkill skillPath outputDir;
    match truthy result with
    | Some _ => io_ret 0%N
    | None => io_ret 1%N
    end.

End WithHost.
End PackageSkillMain.

(** ** [init_skill.js] *)

Module InitSkill.

(** What the scaffolder asks of Node beyond [HostApi]: [path.resolve] with
    two arguments, the calls that write, each answering with the message
    of its rejection, if any, and the file table it leaves behind, and
    [String.prototype.toUpperCase]. *)
Class ScaffoldApi := {
  path_resolve_from : list N → list N → list N;
  fs_mkdir :
    bool → list N → gmap (list N) node → option (list N) * gmap (list N) node;
  fs_writeFile :
    list N → list N → gmap (list N) node
    → option (list N) * gmap (list N) node;
  fs_chmod :
    list N → N → gmap (list N) node → option (list N) * gmap (list N) node;
  toUpperCase : list N → list N
}.

(** The actions of the scaffolder, in program order. *)
Inductive step :=
| Log (line : list N)                        (* console.log *)
| LogError (line : list N)                   (* console.error *)
| Mkdir (recursive : bool) (dir : list N)    (* mkdir(dir[, {recursive}]) *)
| WriteFile (file content : list N)          (* writeFile(file, content) *)
| Chmod (file : list N) (mode : N).          (* chmod(file, mode) *)

Record disk := Disk {
  entries : gmap (list N) node;
  journal : list step
}.

Definition Task (A : Type) : Type := disk → outcome A * disk.

Definition task_ret {A} (a : A) : Task A := λ d, (Fulfilled a, d).

Definition task_bind {A B} (m : Task A) (k : A → Task B) : Task B :=
  λ d, match m d with
       | (Fulfilled a, d') => k a d'
       | (Rejected e, d') => (Rejected e, d')
       end.

(** [try { m } catch (error) { ... }] *)
Definition task_try {A} (m : Task A) : Task (outcome A) :=
  λ d, let '(r, d') := m d in (Fulfilled r, d').

Definition record (s : step) : Task unit :=
  λ d, (Fulfilled tt, Disk (entries d) (journal d ++ [s])).

Definition log (line : list N) : Task unit := record (Log line).
Definition log_error (line : list N) : Task unit := record (LogError line).

(** [fs.existsSync(p)] *)
Definition exists_sync (p : list N) : Task bool :=
  λ d, (Fulfilled (bool_decide (is_Some (entries d !! p))), d).

(** A call that writes: it is recorded, changes the table as the host
    says, and rejects when the host reports an error. *)
Definition perform (s : step)
    (call : gmap (list N) node → option (list N) * gmap (list N) node)
  : Task unit :=
  λ d, let '(err, fs') := call (entries d) in
       let d' := Disk fs' (journal d ++ [s]) in
       match err with
       | None => (Fulfilled tt, d')
       | Some e => (Rejected e, d')
       end.

(** [String.prototype.replace] with a global regular expression that
    matches the literal text [pat] and has no capture groups.  In the
    replacement text [$$] stands for a dollar sign, [$&] for the matched
    text, [$`] for the text before the match and [$'] for the text after
    it; every other code unit stands for itself. *)
Fixpoint expand (replacement matched before after : list N) : list N :=
  match replacement with
  | 36%N :: 36%N :: r => 36%N :: expand r matched before after
  | 36%N :: 38%N :: r => matched ++ expand r matched before after
  | 36%N :: 96%N :: r => before ++ expand r matched before after
  | 36%N :: 39%N :: r => after ++ expand r matched before after
  | c :: r => c :: expand r matched before after
  | [] => []
  end.

(** The scan from left to right: [before] is the text already passed and
    [skip] the number of code units of the last match still to pass;
    matches do not overlap. *)
Fixpoint replace_from (pat replacement : list N) (skip : nat)
    (before s : list N) : list N :=
  match s with
  | [] => []
  | c :: s' =>
      match skip with
      | S k => replace_from pat replacement k (before ++ [c]) s'
      | 0 =>
          if startsWith (c :: s') pat then
            expand replacement pat before (drop (length pat) (c :: s'))
            ++ replace_from pat replacement (length pat - 1) (before ++ [c]) s'
          else c :: replace_from pat replacement 0 (before ++ [c]) s'
      end
  end.

(** [s.replace(/pat/g, replacement)] *)
Definition replace_all (pat replacement s : list N) : list N :=
  replace_from pat replacement 0 [] s.

Definition SKILL_NAME : list N := js "{skill_name}".     (* /{skill_name}/g *)
Definition SKILL_TITLE : list N := js "{skill_title}".   (* /{skill_title}/g *)

Definition template_lines (lines : list (list N)) : list N := join [LF] lines.

(** The manifest template (lines 22-107). *)
Definition SKILL_TEMPLATE : list N := template_lines [
  js "---";
  js "name: {skill_name}";
  js "description: " ++ QUOT ++ js "TODO: Complete and informative explanation of what the skill does and when to use it. Include WHEN to use this skill - specific scenarios, file types, or tasks that trigger it." ++ QUOT;
  js "---";
  [];
  js "# {skill_title}";
  [];
  js "## Overview";
  [];
  js "[TODO: 1-2 sentences explaining what this skill enables]";
  [];
  js "## Structuring This Skill";
  [];
  js "[TODO: Choose the structure that best fits this skill's purpose. Common patterns:";
  [];
  js "**1. Workflow-Based** (best for sequential processes)";
  js "- Works well when there are clear step-by-step procedures";
  js "- Example: DOCX skill with " ++ QUOT ++ js "Workflow Decision Tree" ++ QUOT ++ js " " ++ [8594%N] ++ js " " ++ QUOT ++ js "Reading" ++ QUOT ++ js " " ++ [8594%N] ++ js " " ++ QUOT ++ js "Creating" ++ QUOT ++ js " " ++ [8594%N] ++ js " " ++ QUOT ++ js "Editing" ++ QUOT;
  js "- Structure: ## Overview " ++ [8594%N] ++ js " ## Workflow Decision Tree " ++ [8594%N] ++ js " ## Step 1 " ++ [8594%N] ++ js " ## Step 2...";
  [];
  js "**2. Task-Based** (best for tool collections)";
  js "- Works well when the skill offers different operations/capabilities";
  js "- Example: PDF skill with " ++ QUOT ++ js "Quick Start" ++ QUOT ++ js " " ++ [8594%N] ++ js " " ++ QUOT ++ js "Merge PDFs" ++ QUOT ++ js " " ++ [8594%N] ++ js " " ++ QUOT ++ js "Split PDFs" ++ QUOT ++ js " " ++ [8594%N] ++ js " " ++ QUOT ++ js "Extract Text" ++ QUOT;
  js "- Structure: ## Overview " ++ [8594%N] ++ js " ## Quick Start " ++ [8594%N] ++ js " ## Task Category 1 " ++ [8594%N] ++ js " ## Task Category 2...";
  [];
  js "**3. Reference/Guidelines** (best for standards or specifications)";
  js "- Works well for brand guidelines, coding standards, or requirements";
  js "- Example: Brand styling with " ++ QUOT ++ js "Brand Guidelines" ++ QUOT ++ js " " ++ [8594%N] ++ js " " ++ QUOT ++ js "Colors" ++ QUOT ++ js " " ++ [8594%N] ++ js " " ++ QUOT ++ js "Typography" ++ QUOT ++ js " " ++ [8594%N] ++ js " " ++ QUOT ++ js "Features" ++ QUOT;
  js "- Structure: ## Overview " ++ [8594%N] ++ js " ## Guidelines " ++ [8594%N] ++ js " ## Specifications " ++ [8594%N] ++ js " ## Usage...";
  [];
  js "**4. Capabilities-Based** (best for integrated systems)";
  js "- Works well when the skill provides multiple interrelated features";
  js "- Example: Product Management with " ++ QUOT ++ js "Core Capabilities" ++ QUOT ++ js " " ++ [8594%N] ++ js " numbered capability list";
  js "- Structure: ## Overview " ++ [8594%N] ++ js " ## Core Capabilities " ++ [8594%N] ++ js " ### 1. Feature " ++ [8594%N] ++ js " ### 2. Feature...";
  [];
  js "Patterns can be mixed and matched as needed. Most skills combine patterns (e.g., start with task-based, add workflow for complex operations).";
  [];
  js "Delete this entire " ++ QUOT ++ js "Structuring This Skill" ++ QUOT ++ js " section when done - it's just guidance.]";
  [];
  js "## [TODO: Replace with the first main section based on chosen structure]";
  [];
  js "[TODO: Add content here. See examples in existing skills:";
  js "- Code samples for technical skills";
  js "- Decision trees for complex workflows";
  js "- Concrete examples with realistic user requests";
  js "- References to scripts/templates/references as needed]";
  [];
  js "## Resources";
  [];
  js "This skill includes example resource directories that demonstrate how to organize different types of bundled resources:";
  [];
  js "### scripts/";
  js "Executable code (Node.js/Bash/etc.) that can be run directly to perform specific operations.";
  [];
  js "**Examples from other skills:**";
  js "- PDF skill: `fill_fillable_fields.js`, `extract_form_field_info.js` - utilities for PDF manipulation";
  js "- DOCX skill: `document.js`, `utilities.js` - Node.js modules for document processing";
  [];
  js "**Appropriate for:** Node.js scripts, shell scripts, or any executable code that performs automation, data processing, or specific operations.";
  [];
  js "**Note:** Scripts may be executed without loading into context, but can still be read by the Agent for patching or environment adjustments.";
  [];
  js "### references/";
  js "Documentation and reference material intended to be loaded into context to inform the Agent's process and thinking.";
  [];
  js "**Examples from other skills:**";
  js "- Product management: `communication.md`, `context_building.md` - detailed workflow guides";
  js "- BigQuery: API reference documentation and query examples";
  js "- Finance: Schema documentation, company policies";
  [];
  js "**Appropriate for:** In-depth documentation, API references, database schemas, comprehensive guides, or any detailed information that the Agent should reference while working.";
  [];
  js "### assets/";
  js "Files not intended to be loaded into context, but rather used within the output the Agent produces.";
  [];
  js "**Examples from other skills:**";
  js "- Brand styling: PowerPoint template files (.pptx), logo files";
  js "- Frontend builder: HTML/React boilerplate project directories";
  js "- Typography: Font files (.ttf, .woff2)";
  [];
  js "**Appropriate for:** Templates, boilerplate code, document templates, images, icons, fonts, or any files meant to be copied or used in the final output.";
  [];
  js "---";
  [];
  js "**Any unneeded directories can be deleted.** Not every skill requires all three types of resources.";
  []
].

(** The example script (lines 109-130). *)
Definition EXAMPLE_SCRIPT : list N := template_lines [
  js "#!/usr/bin/env node";
  js "/**";
  js " * Example helper script for {skill_name}";
  js " *";
  js " * This is a placeholder script that can be executed directly.";
  js " * Replace with actual implementation or delete if not needed.";
  js " *";
  js " * Example real scripts from other skills:";
  js " * - pdf/scripts/fill_fillable_fields.js - Fills PDF form fields";
  js " * - pdf/scripts/convert_pdf_to_images.js - Converts PDF pages to images";
  js " */";
  [];
  js "function main() {";
  js "    console.log(" ++ QUOT ++ js "This is an example script for {skill_name}" ++ QUOT ++ js ");";
  js "    // TODO: Add actual script logic here";
  js "    // This could be data processing, file conversion, API calls, etc.";
  js "}";
  [];
  js "if (require.main === module) {";
  js "    main();";
  js "}";
  []
].

(** The example reference document (lines 132-166). *)
Definition EXAMPLE_REFERENCE : list N := template_lines [
  js "# Reference Documentation for {skill_title}";
  [];
  js "This is a placeholder for detailed reference documentation.";
  js "Replace with actual reference content or delete if not needed.";
  [];
  js "Example real reference docs from other skills:";
  js "- product-management/references/communication.md - Comprehensive guide for status updates";
  js "- product-management/references/context_building.md - Deep-dive on gathering context";
  js "- bigquery/references/ - API references and query examples";
  [];
  js "## When Reference Docs Are Useful";
  [];
  js "Reference docs are ideal for:";
  js "- Comprehensive API documentation";
  js "- Detailed workflow guides";
  js "- Complex multi-step processes";
  js "- Information too lengthy for main SKILL.md";
  js "- Content that's only needed for specific use cases";
  [];
  js "## Structure Suggestions";
  [];
  js "### API Reference Example";
  js "- Overview";
  js "- Authentication";
  js "- Endpoints with examples";
  js "- Error codes";
  js "- Rate limits";
  [];
  js "### Workflow Guide Example";
  js "- Prerequisites";
  js "- Step-by-step instructions";
  js "- Common patterns";
  js "- Troubleshooting";
  js "- Best practices";
  []
].

(** The example asset (lines 168-192). *)
Definition EXAMPLE_ASSET : list N := template_lines [
  js "# Example Asset File";
  [];
  js "This placeholder represents where asset files would be stored.";
  js "Replace with actual asset files (templates, images, fonts, etc.) or delete if not needed.";
  [];
  js "Asset files are NOT intended to be loaded into context, but rather used within";
  js "the output the Agent produces.";
  [];
  js "Example asset files from other skills:";
  js "- Brand guidelines: logo.png, slides_template.pptx";
  js "- Frontend builder: hello-world/ directory with HTML/React boilerplate";
  js "- Typography: custom-font.ttf, font-family.woff2";
  js "- Data: sample_data.csv, test_dataset.json";
  [];
  js "## Common Asset Types";
  [];
  js "- Templates: .pptx, .docx, boilerplate directories";
  js "- Images: .png, .jpg, .svg, .gif";
  js "- Fonts: .ttf, .otf, .woff, .woff2";
  js "- Boilerplate code: Project directories, starter files";
  js "- Icons: .ico, .svg";
  js "- Data files: .csv, .json, .xml, .yaml";
  [];
  js "Note: This is a text placeholder. Actual assets can be any file type.";
  []
].

Definition ROCKET : list N := [55357%N; 56960%N].   (* U+1F680 *)

Section WithHost.
Context `{HostApi} `{ScaffoldApi}.

(** [word.charAt(0).toUpperCase() + word.slice(1)] *)
Definition capitalize (word : list N) : list N :=
  toUpperCase (take 1 word) ++ drop 1 word.

(** [function titleCaseSkillName(skillName)] *)
Definition titleCaseSkillName (skillName : list N) : list N :=
  join (js " ") (capitalize <$> split (chr "-") skillName).

(** The text written to [SKILL.md] (lines 216-219). *)
Definition skillContent (skillName : list N) : list N :=
  let skillTitle := titleCaseSkillName skillName in
  replace_all SKILL_TITLE skillTitle
    (replace_all SKILL_NAME skillName SKILL_TEMPLATE).

(** Line 230. *)
Definition scriptContent (skillName : list N) : list N :=
  replace_all SKILL_NAME skillName EXAMPLE_SCRIPT.

(** Line 238. *)
Definition referenceContent (skillName : list N) : list N :=
  replace_all SKILL_TITLE (titleCaseSkillName skillName) EXAMPLE_REFERENCE.

Definition mkdir (recursive : bool) (dir : list N) : Task unit :=
  perform (Mkdir recursive dir) (fs_mkdir recursive dir).
Definition writeFile (file content : list N) : Task unit :=
  perform (WriteFile file content) (fs_writeFile file content).
Definition chmod (file : list N) (mode : N) : Task unit :=
  perform (Chmod file mode) (fs_chmod file mode).

Notation "x ←ₜ m ; k" := (task_bind m (λ x, k))
  (at level 20, m at level 100, k at level 200, right associativity).
Notation "m ;;ₜ k" := (task_bind m (λ _, k))
  (at level 100, k at level 200, right associativity).

(** The [try] block of [initSkill], lines 211-254. *)
Definition scaffold (skillName skillDir : list N) : Task (option (list N)) :=
  mkdir true skillDir ;;ₜ
  log (CHECK_MARK ++ js " Created skill directory: " ++ skillDir) ;;ₜ
  writeFile (path_join skillDir (js "SKILL.md")) (skillContent skillName) ;;ₜ
  log (CHECK_MARK ++ js " Created SKILL.md") ;;ₜ
  let scriptsDir := path_join skillDir (js "scripts") in
  mkdir false scriptsDir ;;ₜ
  let exampleScriptPath := path_join scriptsDir (js "example.js") in
  writeFile exampleScriptPath (scriptContent skillName) ;;ₜ
  chmod exampleScriptPath 493%N ;;ₜ                           (* 0o755 *)
  log (CHECK_MARK ++ js " Created scripts/example.js") ;;ₜ
  let referencesDir := path_join skillDir (js "references") in
  mkdir false referencesDir ;;ₜ
  writeFile (path_join referencesDir (js "api_reference.md"))
    (referenceContent skillName) ;;ₜ
  log (CHECK_MARK ++ js " Created references/api_reference.md") ;;ₜ
  let assetsDir := path_join skillDir (js "assets") in
  mkdir false assetsDir ;;ₜ
  writeFile (path_join assetsDir (js "example_asset.txt")) EXAMPLE_ASSET ;;ₜ
  log (CHECK_MARK ++ js " Created assets/example_asset.txt") ;;ₜ
  log (LF :: CHECK_MARK ++ js " Skill '" ++ skillName
       ++ js "' initialized successfully at " ++ skillDir) ;;ₜ
  log (LF :: js "Next steps:") ;;ₜ
  log (js "1. Edit SKILL.md to complete the TODO items and update the description") ;;ₜ
  log (js "2. Customize or delete the example files in scripts/, references/, and assets/") ;;ₜ
  log (js "3. Run the validator when ready to check the skill structure") ;;ₜ
  task_ret (Some skillDir).

(** [async function initSkill(skillName, outputPath)]; [None] is the
    [null] it returns on failure. *)
Definition initSkill (skillName outputPath : list N)
  : Task (option (list N)) :=
  let skillDir := path_resolve_from outputPath skillName in
  found ←ₜ exists_sync skillDir;
  if found then
    log_error (CROSS_MARK ++ js " Error: Skill directory already exists: "
               ++ skillDir) ;;ₜ
    task_ret None
  else
    attempt ←ₜ task_try (scaffold skillName skillDir);
    match attempt with
    | Fulfilled r => task_ret r
    | Rejected e =>
        log_error (CROSS_MARK ++ js " Error initializing skill: " ++ e) ;;ₜ
        task_ret None
    end.

(** The loop of lines 268-277 from index [i] on, [args] being what is left
    of the arguments there: [--path] takes the next argument, if there is
    one, as the output path; any other argument becomes the skill name
    while the name is still falsy. *)
Fixpoint parse_args (args : list (list N))
    (skillName outputPath : option (list N))
  : option (list N) * option (list N) :=
  match args with
  | [] => (skillName, outputPath)
  | arg :: rest =>
      if bool_decide (arg = js "--path") then
        match rest with
        | value :: rest' => parse_args rest' skillName (Some value)
        | [] => (skillName, outputPath)
        end
      else if falsy skillName then parse_args rest (Some arg) outputPath
      else parse_args rest skillName outputPath
  end.

Definition usage : Task unit :=
  log (js "Usage: node init_skill.js <skill-name> --path <path>") ;;ₜ
  log (LF :: js "Skill name requirements:") ;;ₜ
  log (js "  - Hyphen-case identifier (e.g., 'data-analyzer')") ;;ₜ
  log (js "  - Lowercase letters, digits, and hyphens only") ;;ₜ
  log (js "  - Max 40 characters") ;;ₜ
  log (js "  - Must match directory name exactly") ;;ₜ
  log (LF :: js "Examples:") ;;ₜ
  log (js "  node init_skill.js my-new-skill --path .agent/skills") ;;ₜ
  log (js "  node init_skill.js my-api-helper --path .agent/skills").

(** [async function main()] of [init_skill.js], lines 261-302. *)
Definition main (args : list (list N)) : Task N :=
  let '(skillName, outputPath) := parse_args args None None in
  if falsy skillName || falsy outputPath then
    usage ;;ₜ task_ret 1%N
  else
    let skillName := default [] skillName in
    let outputPath := default [] outputPath in
    log (ROCKET ++ js " Initializing skill: " ++ skillName) ;;ₜ
    log (js "   Location: " ++ outputPath ++ [LF]) ;;ₜ
    result ←ₜ initSkill skillName outputPath;
    match truthy result with
    | Some _ => task_ret 0%N
    | None => task_ret 1%N
    end.

End WithHost.

End InitSkill.

(** ** Vocabulary for the properties of the scaffolder *)

Module ScaffoldSpec.
Import InitSkill.

(** The calls that write, as opposed to console output. *)
Definition is_file_step (s : step) : bool :=
  match s with
  | Log _ | LogError _ => false
  | Mkdir _ _ | WriteFile _ _ | Chmod _ _ => true
  end.

Definition file_steps (journal : list step) : list step :=
  List.filter is_file_step journal.

Section WithHost.
Context `{HostApi} `{ScaffoldApi}.

(** The calls that write of a complete run of [initSkill], in the order of
    lines 212-245. *)
Definition plan (skillName skillDir : list N) : list step :=
  [Mkdir true skillDir;
   WriteFile (path_join skillDir (js "SKILL.md")) (skillContent skillName);
   Mkdir false (path_join skillDir (js "scripts"));
   WriteFile (path_join (path_join skillDir (js "scripts")) (js "example.js"))
     (scriptContent skillName);
   Chmod (path_join (path_join skillDir (js "scripts")) (js "example.js"))
     493%N;
   Mkdir false (path_join skillDir (js "references"));
   WriteFile (path_join (path_join skillDir (js "references"))
                (js "api_reference.md"))
     (referenceContent skillName);
   Mkdir false (path_join skillDir (js "assets"));
   WriteFile (path_join (path_join skillDir (js "assets"))
                (js "example_asset.txt"))
     EXAMPLE_ASSET].

End WithHost.

(** A line printed with [console.error]. *)
Definition is_log_error (s : step) : Prop := ∃ line, s = LogError line.

(** From a title back to a name: a space becomes a hyphen and a capital
    letter its small letter. *)
Definition slug_of_title (title : list N) : list N :=
  (λ c, if (c =? 32)%N then 45%N
        else if ((65 <=? c) && (c <=? 90))%N then (c + 32)%N else c)
  <$> title.

(** The description the template gives a new skill (line 24, between the
    quotes). *)
Definition TEMPLATE_DESCRIPTION : list N :=
  js "TODO: Complete and informative explanation of what the skill does and when to use it. Include WHEN to use this skill - specific scenarios, file types, or tasks that trigger it.".

End ScaffoldSpec.

(** ** A host for the scaffolder's examples

    [mkdir] and [writeFile] enter what they make in the table, [chmod]
    changes nothing the table records, and [toUpperCase] is the mapping of
    the letters [a] to [z]. *)

Module ExampleScaffold.
Import InitSkill.

Definition upper (c : N) : N :=
  if ((97 <=? c) && (c <=? 122))%N then (c - 32)%N else c.

#[export] Instance scaffold_host : ScaffoldApi := {|
  path_resolve_from base name :=
    ExampleHost.resolve (base ++ ExampleHost.SLASH :: name);
  fs_mkdir recursive dir fs := (None, <[dir := Directory]> fs);
  fs_writeFile file content fs := (None, <[file := RegularFile content]> fs);
  fs_chmod file mode fs := (None, fs);
  toUpperCase := fmap upper
|}.

(** The same host on a disk that refuses every write to a file. *)
Definition read_only_host : ScaffoldApi := {|
  path_resolve_from base name :=
    ExampleHost.resolve (base ++ ExampleHost.SLASH :: name);
  fs_mkdir recursive dir fs := (None, <[dir := Directory]> fs);
  fs_writeFile file content fs :=
    (Some (js "EACCES: permission denied"), fs);
  fs_chmod file mode fs := (None, fs);
  toUpperCase := fmap upper
|}.

Definition empty_disk : disk := Disk ∅ [].

End ExampleScaffold.

(** ** A host whose disk is full

    The paths are those of the example host; [mkdir] fails and makes
    nothing. *)

Module FullDisk.

Definition no_space_host : HostApi := {|
  path_resolve := ExampleHost.resolve;
  path_join a b := a ++ ExampleHost.SLASH :: b;
  path_basename := ExampleHost.basename;
  path_dirname := ExampleHost.dirname;
  process_cwd := js "/work";
  fs_mkdir_recursive dir fs :=
    (Some (js "ENOSPC: no space left on device"), fs);
  child_process_exec cmd fs := (None, fs)
|}.

End FullDisk.

(** ** Hosts with an archiver

    On the first, [zip] ends without error and has written the file named
    by the second quoted word of its command line; on the second there is
    no [zip].  The paths and [mkdir] are those of the example host. *)

Module Archiver.

Definition zip_host : HostApi := {|
  path_resolve := ExampleHost.resolve;
  path_join a b := a ++ ExampleHost.SLASH :: b;
  path_basename := ExampleHost.basename;
  path_dirname := ExampleHost.dirname;
  process_cwd := js "/work";
  fs_mkdir_recursive dir fs := (None, <[dir := Directory]> fs);
  child_process_exec cmd fs :=
    match split 34%N cmd with
    | [_; _; _; file; _; _; _] =>
        (None, <[file := RegularFile (js "PK")]> fs)
    | _ => (Some (js "zip error: Invalid command arguments"), fs)
    end
|}.

Definition no_zip_host : HostApi := {|
  path_resolve := ExampleHost.resolve;
  path_join a b := a ++ ExampleHost.SLASH :: b;
  path_basename := ExampleHost.basename;
  path_dirname := ExampleHost.dirname;
  process_cwd := js "/work";
  fs_mkdir_recursive dir fs := (None, <[dir := Directory]> fs);
  child_process_exec cmd fs :=
    (Some (js "Command failed: " ++ cmd ++ LF :: js "/bin/sh: 1: zip: not found"
           ++ [LF]), fs)
|}.

End Archiver.

(** ** Facts about the string operations *)

Section StringFacts.
Implicit Types s p t d : list N.

Lemma startsWith_prefix s p : startsWith s p = true ↔ p `prefix_of` s.
Proof.
  revert s. induction p as [|a p IH]; intros [|b s]; simpl.
  - split; [intros _; apply prefix_nil | done].
  - split; [intros _; apply prefix_nil | done].
  - split; [done | intros [k Hk]; discriminate].
  - destruct (N.eqb_spec a b) as [->|Hne].
    + rewrite IH. split; [apply prefix_cons | apply prefix_cons_inv_2].
    + split; [done | intros Hp; apply prefix_cons_inv_1 in Hp; done].
Qed.

Lemma startsWith_app s t : startsWith (s ++ t) s = true.
Proof. apply startsWith_prefix. by exists t. Qed.

Lemma endsWith_suffix s p : endsWith s p = true ↔ p `suffix_of` s.
Proof.
  unfold endsWith. rewrite startsWith_prefix. symmetry.
  apply suffix_prefix_reverse.
Qed.

Lemma includes_infix s p :
  includes s p = true ↔ ∃ a b, s = a ++ p ++ b.
Proof.
  induction s as [|c s IH]; cbn [includes].
  - rewrite orb_false_r, startsWith_prefix. split.
    + intros [k ->]. by exists [], k.
    + intros (a & b & Hs). destruct a; [by exists b|done].
  - rewrite orb_true_iff, IH, startsWith_prefix. split.
    + intros [[k ->]|(a & b & ->)]; [by exists [], k | by exists (c :: a), b].
    + intros (a & b & Hs). destruct a as [|c' a]; simpl in Hs.
      * left. by exists b.
      * right. injection Hs as -> ->. by exists a, b.
Qed.

(** A single code unit occurs in a string exactly when [includes] finds
    it. *)
Lemma includes_singleton s c : includes s [c] = true ↔ c ∈ s.
Proof.
  rewrite includes_infix. split.
  - intros (a & b & ->). set_solver.
  - intros (a & b & ->)%list_elem_of_split. by exists a, b.
Qed.

Lemma lazy_until_Some d s t :
  lazy_until d s = Some t →
  (∃ rest, s = t ++ d ++ rest)
  ∧ ∀ a b, s = a ++ d ++ b → length t ≤ length a.
Proof.
  revert t. induction s as [|c s IH]; intros t; cbn [lazy_until].
  - destruct (startsWith [] d) eqn:Hd.
    + intros [= <-]. apply startsWith_prefix in Hd as [k Hk].
      split; [by exists k | intros; simpl; lia].
    + done.
  - destruct (startsWith (c :: s) d) eqn:Hd.
    + intros [= <-]. apply startsWith_prefix in Hd as [k Hk].
      split; [by exists k | intros; simpl; lia].
    + destruct (lazy_until d s) as [t'|] eqn:Ht; [|done].
      intros [= <-]. destruct (IH t' eq_refl) as [[rest ->] Hmin].
      split; [by exists rest|].
      intros [|c' a] b Hs; simpl in Hs.
      * rewrite Hs, startsWith_app in Hd. done.
      * injection Hs as -> Hs. simpl. apply le_n_S. eauto.
Qed.

Lemma lazy_until_None d s :
  lazy_until d s = None ↔ ¬ ∃ a b, s = a ++ d ++ b.
Proof.
  rewrite <-includes_infix.
  induction s as [|c s IH]; cbn [lazy_until includes].
  - destruct (startsWith [] d); simpl; split; try done.
  - destruct (startsWith (c :: s) d); simpl; [split; done|].
    destruct (lazy_until d s); simpl.
    + split; [done|]. intros Hn. apply IH in Hn. done.
    + split; [|done]. intros _. by apply IH.
Qed.

Lemma hyphen_case_spec name :
  hyphen_case name = true ↔
  name ≠ [] ∧ Forall (λ c, hyphen_case_char c = true) name.
Proof.
  destruct name as [|c name]; [split; [done | intros [? _]; done]|].
  unfold hyphen_case. rewrite forallb_forall, Forall_forall.
  split; [intros Hf; split; [done|] | intros [_ Hf]].
  - intros x Hx. apply Hf. by apply list_elem_of_In.
  - intros x Hx. apply Hf. by apply list_elem_of_In.
Qed.
End StringFacts.

(** ** Facts about the rules *)

(** Two messages differ when their texts do; a message built around a value
    is told apart by its first code unit. *)
Ltac head_differs :=
  let Hm := fresh in
  intros Hm;
  first [ discriminate Hm
        | apply (f_equal (take 1)) in Hm; cbn in Hm; discriminate Hm ].

Lemma elem_of_keys (h : gmap (list N) (list N)) k :
  k ∈ keys h ↔ is_Some (h !! k).
Proof.
  unfold keys. rewrite list_elem_of_fmap. split.
  - intros [[k' v] [-> Hkv]]. exists v. by apply elem_of_map_to_list.
  - intros [v Hv]. exists (k, v). split; [done|]. by apply elem_of_map_to_list.
Qed.

Lemma elem_of_unexpectedKeys (h : gmap (list N) (list N)) k :
  k ∈ unexpectedKeys h ↔ is_Some (h !! k) ∧ k ∉ ALLOWED_PROPERTIES.
Proof.
  unfold unexpectedKeys. rewrite list_elem_of_filter, elem_of_keys. tauto.
Qed.

Lemma unexpectedKeys_nil (h : gmap (list N) (list N)) :
  unexpectedKeys h = [] ↔ ∀ k, is_Some (h !! k) → k ∈ ALLOWED_PROPERTIES.
Proof.
  split.
  - intros Hnil k Hk.
    destruct (decide (k ∈ ALLOWED_PROPERTIES)) as [|Hout]; [done|].
    assert (k ∈ unexpectedKeys h) as Hin by by apply elem_of_unexpectedKeys.
    rewrite Hnil in Hin. by apply elem_of_nil in Hin.
  - intros Hall. destruct (unexpectedKeys h) as [|k ks] eqn:Hu; [done|].
    assert (k ∈ unexpectedKeys h) as Hin by (rewrite Hu; left).
    apply elem_of_unexpectedKeys in Hin as [Hk Hout]. by apply Hall in Hk.
Qed.

Lemma missing_name_iff (h : gmap (list N) (list N)) :
  message (check_frontmatter h) = js "Missing 'name' in frontmatter"
  ↔ unexpectedKeys h = [] ∧ falsy (h !! js "name") = true.
Proof.
  unfold check_frontmatter.
  destruct (unexpectedKeys h) as [|k ks] eqn:Hu.
  - destruct (falsy (h !! js "name")); [done|].
    split; [|intros [_ ?]; done].
    repeat case_match; first [head_differs | idtac].
  - split; [| intros [? _]; done]. unfold unexpected_message. head_differs.
Qed.

Section ValidateSkillFacts.
Context `{HostApi}.

Lemma validateSkill_run skillPath w :
  validateSkill skillPath w
  = (Fulfilled (manifest_verdict (files w !! skillMdPath skillPath)), w).
Proof.
  unfold validateSkill, io_bind, existsSync, io_try, readFile, io_ret.
  destruct (files w !! skillMdPath skillPath) as [[| |]|] eqn:Hm;
    cbn; rewrite ?Hm; try done.
Qed.

Lemma validateSkill_readable skillPath w content :
  files w !! skillMdPath skillPath = Some (RegularFile content) →
  validateSkill skillPath w = (Fulfilled (validate_content content), w).
Proof. intros Hm. by rewrite validateSkill_run, Hm. Qed.

(** [packageSkill] hands [validateSkill] a path it has resolved already;
    where [path.resolve] leaves its own results alone, as Node's does, that
    is the same call. *)
Lemma validateSkill_resolved skillPath :
  path_resolve (path_resolve skillPath) = path_resolve skillPath →
  validateSkill (path_resolve skillPath) = validateSkill skillPath.
Proof. intros Hidem. unfold validateSkill, skillMdPath. by rewrite Hidem. Qed.
End ValidateSkillFacts.

Lemma match_frontmatter_startsWith content t :
  match_frontmatter content = Some t → startsWith content (js "---") = true.
Proof.
  unfold match_frontmatter. destruct (startsWith content OPENING) eqn:Ho; [|done].
  intros _. apply startsWith_prefix in Ho as [k ->]. done.
Qed.

Lemma check_frontmatter_message_other (h : gmap (list N) (list N)) :
  message (check_frontmatter h) ≠ js "No YAML frontmatter found"
  ∧ message (check_frontmatter h) ≠ js "Invalid frontmatter format"
  ∧ message (check_frontmatter h) ≠ js "SKILL.md not found".
Proof.
  unfold check_frontmatter, unexpected_message.
  repeat split; repeat case_match; head_differs.
Qed.

Lemma falsy_iff (v : option (list N)) :
  falsy v = true ↔ v = None ∨ v = Some [].
Proof. destruct v as [[|c v]|]; simpl; intuition congruence. Qed.

Lemma missing_description_iff (h : gmap (list N) (list N)) :
  message (check_frontmatter h) = js "Missing 'description' in frontmatter"
  ↔ unexpectedKeys h = [] ∧ falsy (h !! js "name") = false
    ∧ falsy (h !! js "description") = true.
Proof.
  unfold check_frontmatter.
  destruct (unexpectedKeys h) as [|k ks] eqn:Hu.
  - destruct (falsy (h !! js "name")).
    { split; [head_differs | intros (_ & ? & _); done]. }
    destruct (falsy (h !! js "description")); [done|].
    split; [|intros (_ & _ & ?); done].
    repeat case_match; head_differs.
  - split; [| intros [? _]; done]. unfold unexpected_message. head_differs.
Qed.

Lemma split_head_prefix sep (s l : list N) :
  head (split sep s) = Some l → l `prefix_of` s.
Proof.
  revert l. induction s as [|c s IH]; intros l; cbn [split].
  - intros [= <-]. done.
  - destruct (N.eqb c sep); [intros [= <-]; apply prefix_nil|].
    destruct (split sep s) as [|piece rest].
    + intros [= <-]. by exists s.
    + intros [= <-]. apply prefix_cons, IH. done.
Qed.

Lemma begins_with_delimiter_line_startsWith content :
  begins_with_delimiter_line content → startsWith content (js "---") = true.
Proof. intros Hl. by apply startsWith_prefix, (split_head_prefix LF). Qed.

(** ** The scenarios of the specification *)

Import ExampleHost.

(** Scenario B: the header omits [description]. *)
Example scenario_B :
  validate_content (text ["---"; "name: my-skill"; "---"]%string)
  = failure (js "Missing 'description' in frontmatter").
Proof. vm_compute. reflexivity. Qed.

(** Scenario C: [name: My_Skill]. *)
Example scenario_C :
  validate_content
    (text ["---"; "name: My_Skill"; "description: Does X"; "---"]%string)
  = failure (js "Name 'My_Skill' should be hyphen-case (lowercase letters, digits, and hyphens only)").
Proof. vm_compute. reflexivity. Qed.

(** Scenario D: the header includes the field [author: Jane]. *)
Example scenario_D :
  validate_content
    (text ["---"; "name: my-skill"; "description: Does X"; "author: Jane";
           "---"]%string)
  = failure (js "Unexpected key(s) in SKILL.md frontmatter: author. Allowed properties are: allowed-tools, description, license, metadata, name").
Proof. vm_compute. reflexivity. Qed.

(** Scenario E: a description of 1025 code units. *)
Example scenario_E :
  validate_content
    (js "---" ++ LF :: js "name: my-skill" ++ LF :: js "description: "
     ++ replicate 1025 (chr "x") ++ LF :: js "---")
  = failure (js "Description is too long (1025 characters). Maximum is 1024 characters.").
Proof. vm_compute. reflexivity. Qed.

(** ** The claims *)

(** *** C5 *)

(** C5, as the source has it.  For every manifest text, validation fails with
    "No YAML frontmatter found" exactly when the text does not start with the
    three code units [---], whatever follows them; in particular the failure
    occurs for no text whose first line is the delimiter. *)
Theorem validateSkill_no_frontmatter_iff `{HostApi} skillPath w content :
  files w !! skillMdPath skillPath = Some (RegularFile content) →
  ∃ r, validateSkill skillPath w = (Fulfilled r, w)
    ∧ (message r = js "No YAML frontmatter found"
       ↔ startsWith content (js "---") = false)
    ∧ (startsWith content (js "---") = false → valid r = false)
    ∧ (begins_with_delimiter_line content →
       message r ≠ js "No YAML frontmatter found").
Proof.
  intros Hm. eexists. split; [by apply validateSkill_readable|].
  assert (message (validate_content content) = js "No YAML frontmatter found"
          ↔ startsWith content (js "---") = false) as Hiff.
  { unfold validate_content. destruct (startsWith content (js "---")); [|done].
    split; [|done]. cbn [negb]. destruct (match_frontmatter content).
    - intros Hmsg. by apply check_frontmatter_message_other in Hmsg.
    - head_differs. }
  split; [done|]. split.
  - intros Hs. unfold validate_content. by rewrite Hs.
  - intros Hl%begins_with_delimiter_line_startsWith. rewrite Hiff, Hl. done.
Qed.

Lemma validateSkill_no_frontmatter_iff_witness :
  let content := text ["# Demo skill"; "No header here."]%string in
  let w := skill_world content in
  ∃ r, validateSkill (js "/skills/demo") w = (Fulfilled r, w)
    ∧ (message r = js "No YAML frontmatter found"
       ↔ startsWith content (js "---") = false)
    ∧ (startsWith content (js "---") = false → valid r = false)
    ∧ (begins_with_delimiter_line content →
       message r ≠ js "No YAML frontmatter found").
Proof.
  intros content w.
  apply (validateSkill_no_frontmatter_iff (js "/skills/demo") w content).
  vm_compute. reflexivity.
Defined.

(** C5 as stated fails: a text whose first line is four hyphens does not
    begin with the delimiter on a line of its own, yet it is not reported as
    lacking frontmatter; the message is the one of a malformed header. *)
Lemma no_frontmatter_counterexample :
  let content :=
    text
      ["----"; "name: demo"; "description: A demo"; "----"]%string in
  let w := skill_world content in
  ¬ begins_with_delimiter_line content
  ∧ validateSkill (js "/skills/demo") w
    = (Fulfilled (failure (js "Invalid frontmatter format")), w)
  ∧ js "Invalid frontmatter format" ≠ js "No YAML frontmatter found".
Proof. repeat split; vm_compute; discriminate. Qed.


(** *** C4 *)

(** C4, as the source has it.  Once the allow-list rule has passed,
    [validateSkill] answers "Missing 'name' in frontmatter" exactly when the
    parsed header has no [name] field or has one whose value is the empty
    string; a [name] field with a non-empty value passes the rule, and the
    same then holds of [description] and its message. *)
Theorem validateSkill_missing_field_iff `{HostApi}
    skillPath w content frontmatterText :
  files w !! skillMdPath skillPath = Some (RegularFile content) →
  match_frontmatter content = Some frontmatterText →
  (∀ k, is_Some (parse_frontmatter frontmatterText !! k) →
        k ∈ ALLOWED_PROPERTIES) →
  ∃ r, validateSkill skillPath w = (Fulfilled r, w)
    ∧ (message r = js "Missing 'name' in frontmatter"
       ↔ parse_frontmatter frontmatterText !! js "name" = None
         ∨ parse_frontmatter frontmatterText !! js "name" = Some [])
    ∧ ((∃ c name,
          parse_frontmatter frontmatterText !! js "name" = Some (c :: name)) →
       (message r = js "Missing 'description' in frontmatter"
        ↔ parse_frontmatter frontmatterText !! js "description" = None
          ∨ parse_frontmatter frontmatterText !! js "description" = Some [])).
Proof.
  intros Hm Ht Hallowed. eexists. split; [by apply validateSkill_readable|].
  apply unexpectedKeys_nil in Hallowed.
  unfold validate_content.
  rewrite (match_frontmatter_startsWith _ _ Ht), Ht. cbn [negb].
  split.
  - rewrite missing_name_iff, falsy_iff. tauto.
  - intros (c & name & Hname).
    rewrite missing_description_iff, falsy_iff, Hname. cbn [falsy]. tauto.
Qed.

Lemma validateSkill_missing_field_iff_witness :
  let content := text ["---"; "name: demo"; "license: MIT"; "---"]%string in
  let frontmatterText := js "name: demo" ++ LF :: js "license: MIT" in
  let w := skill_world content in
  ∃ r, validateSkill (js "/skills/demo") w = (Fulfilled r, w)
    ∧ (message r = js "Missing 'name' in frontmatter"
       ↔ parse_frontmatter frontmatterText !! js "name" = None
         ∨ parse_frontmatter frontmatterText !! js "name" = Some [])
    ∧ ((∃ c name,
          parse_frontmatter frontmatterText !! js "name" = Some (c :: name)) →
       (message r = js "Missing 'description' in frontmatter"
        ↔ parse_frontmatter frontmatterText !! js "description" = None
          ∨ parse_frontmatter frontmatterText !! js "description" = Some [])).
Proof.
  intros content frontmatterText w.
  apply (validateSkill_missing_field_iff (js "/skills/demo") w content
           frontmatterText).
  - vm_compute. reflexivity.
  - vm_compute. reflexivity.
  - apply unexpectedKeys_nil. vm_compute. reflexivity.
Defined.

(** C4 as stated fails: the header below has a [name] field, with the empty
    string as its value, and the answer is still the message of a missing
    name. *)
Lemma missing_name_counterexample :
  let content := text ["---"; "name:"; "description: A demo"; "---"]%string in
  let frontmatterText := js "name:" ++ LF :: js "description: A demo" in
  let w := skill_world content in
  match_frontmatter content = Some frontmatterText
  ∧ is_Some (parse_frontmatter frontmatterText !! js "name")
  ∧ validateSkill (js "/skills/demo") w
    = (Fulfilled (failure (js "Missing 'name' in frontmatter")), w).
Proof.
  split; [|split].
  - vm_compute. reflexivity.
  - exists []. vm_compute. reflexivity.
  - vm_compute. reflexivity.
Qed.


(** *** C1 *)

Lemma hyphen_case_char_spec c : hyphen_case_char c = true ↔ name_char c.
Proof.
  unfold hyphen_case_char, name_char.
  rewrite !orb_true_iff, !andb_true_iff, !N.leb_le, N.eqb_eq. tauto.
Qed.

Lemma hyphen_case_name_char name :
  hyphen_case name = true ↔ name ≠ [] ∧ Forall name_char name.
Proof.
  rewrite hyphen_case_spec, !Forall_forall.
  split; intros [Hne Hall]; (split; [done|]);
    intros c Hc; apply hyphen_case_char_spec; auto.
Qed.

Lemma startsWith_hyphen name :
  startsWith name (js "-") = true ↔ head name = Some HYPHEN.
Proof.
  rewrite startsWith_prefix. split.
  - intros [k ->]. done.
  - destruct name as [|c name]; [done|]. intros [= ->]. by exists name.
Qed.

Lemma endsWith_hyphen name :
  endsWith name (js "-") = true ↔ last name = Some HYPHEN.
Proof.
  rewrite endsWith_suffix. change (js "-") with [HYPHEN]. split.
  - intros [k ->]. by rewrite last_snoc.
  - destruct name as [|c name] using rev_ind; [done|].
    rewrite last_snoc. intros [= ->]. by exists name.
Qed.

Lemma valid_check_frontmatter (h : gmap (list N) (list N)) :
  valid (check_frontmatter h) = true ↔
    unexpectedKeys h = []
    ∧ falsy (h !! js "name") = false
    ∧ falsy (h !! js "description") = false
    ∧ hyphen_case (name_of h) = true
    ∧ startsWith (name_of h) (js "-") = false
    ∧ endsWith (name_of h) (js "-") = false
    ∧ includes (name_of h) (js "--") = false
    ∧ length (name_of h) ≤ 64
    ∧ includes (description_of h) (js "<") = false
    ∧ includes (description_of h) (js ">") = false
    ∧ length (description_of h) ≤ 1024.
Proof.
  unfold check_frontmatter, name_of, description_of.
  destruct (unexpectedKeys h); [|split; [done | intros [? _]; done]].
  destruct (falsy (h !! js "name")); [split; [done | intros (_ & ? & _); done]|].
  destruct (falsy (h !! js "description"));
    [split; [done | intros (_ & _ & ? & _); done]|].
  destruct (hyphen_case _); cbn [negb];
    [|split; [done | intros (_ & _ & _ & ? & _); done]].
  destruct (startsWith _ (js "-")); cbn [orb];
    [split; [done | intros (_ & _ & _ & _ & ? & _); done]|].
  destruct (endsWith _ (js "-")); cbn [orb];
    [split; [done | intros (_ & _ & _ & _ & _ & ? & _); done]|].
  destruct (includes _ (js "--"));
    [split; [done | intros (_ & _ & _ & _ & _ & _ & ? & _); done]|].
  case_bool_decide;
    [split; [done | intros (_ & _ & _ & _ & _ & _ & _ & ? & _); lia]|].
  destruct (includes _ (js "<")); cbn [orb];
    [split; [done | intros (_ & _ & _ & _ & _ & _ & _ & _ & ? & _); done]|].
  destruct (includes _ (js ">"));
    [split; [done | intros (_ & _ & _ & _ & _ & _ & _ & _ & _ & ? & _); done]|].
  case_bool_decide; cbn [valid failure]; [|intuition lia].
  split; [done | intros (_ & _ & _ & _ & _ & _ & _ & _ & _ & _ & ?); lia].
Qed.

Lemma name_rules_spec name :
  hyphen_case name = true
  ∧ startsWith name (js "-") = false
  ∧ endsWith name (js "-") = false
  ∧ includes name (js "--") = false
  ∧ length name ≤ 64
  ↔ name_well_formed name.
Proof.
  unfold name_well_formed.
  rewrite <-hyphen_case_name_char, <-startsWith_hyphen, <-endsWith_hyphen.
  rewrite <-(includes_infix name [HYPHEN; HYPHEN]).
  change (js "--") with [HYPHEN; HYPHEN].
  rewrite !not_true_iff_false. tauto.
Qed.

Lemma description_rules_spec description :
  includes description (js "<") = false
  ∧ includes description (js ">") = false
  ∧ length description ≤ 1024
  ↔ description_well_formed description.
Proof.
  unfold description_well_formed.
  rewrite <-!includes_singleton, !not_true_iff_false. done.
Qed.

(** C1, as the source has it.  For every manifest whose parsed header
    contains only allow-listed field names and has [name] and [description]
    fields, [validateSkill] returns [valid: true] if and only if the name
    matches [^[a-z0-9-]+$], neither starts nor ends with a hyphen, has no two
    hyphens in a row and at most 64 code units, and the description is not
    the empty string, contains neither [<] nor [>] and has at most 1024 code
    units. *)
Theorem validateSkill_valid_iff `{HostApi}
    skillPath w content frontmatterText name description :
  files w !! skillMdPath skillPath = Some (RegularFile content) →
  match_frontmatter content = Some frontmatterText →
  (∀ k, is_Some (parse_frontmatter frontmatterText !! k) →
        k ∈ ALLOWED_PROPERTIES) →
  parse_frontmatter frontmatterText !! js "name" = Some name →
  parse_frontmatter frontmatterText !! js "description" = Some description →
  ∃ r, validateSkill skillPath w = (Fulfilled r, w)
    ∧ (valid r = true
       ↔ name_well_formed name
         ∧ description ≠ [] ∧ description_well_formed description).
Proof.
  intros Hm Ht Hallowed Hname Hdesc.
  eexists. split; [by apply validateSkill_readable|].
  apply unexpectedKeys_nil in Hallowed.
  unfold validate_content.
  rewrite (match_frontmatter_startsWith _ _ Ht), Ht. cbn [negb].
  rewrite valid_check_frontmatter.
  unfold name_of, description_of. rewrite Hname, Hdesc. cbn [default].
  rewrite <-name_rules_spec, <-description_rules_spec.
  split.
  - intros (_ & Hn & Hd & Hrest). split; [tauto|].
    split; [|tauto]. by destruct description.
  - intros (Hn & Hd & Hrest). split; [done|].
    assert (name ≠ []) as Hne.
    { destruct Hn as [Hc _]. apply hyphen_case_name_char in Hc. tauto. }
    split; [by destruct name|]. split; [by destruct description|]. tauto.
Qed.

(** Scenario A of the specification. *)
Lemma validateSkill_valid_iff_witness :
  let content :=
    js "---" ++ LF :: js "name: my-skill" ++ LF :: js "description: "
    ++ QUOT ++ js "Does X" ++ QUOT ++ LF :: js "---" in
  let w := skill_world content in
  ∃ r, validateSkill (js "/skills/demo") w = (Fulfilled r, w)
    ∧ (valid r = true
       ↔ name_well_formed (js "my-skill")
         ∧ js "Does X" ≠ [] ∧ description_well_formed (js "Does X")).
Proof.
  intros content w.
  apply (validateSkill_valid_iff (js "/skills/demo") w content
           (js "name: my-skill" ++ LF :: js "description: " ++ QUOT
            ++ js "Does X" ++ QUOT)).
  - vm_compute. reflexivity.
  - vm_compute. reflexivity.
  - apply unexpectedKeys_nil. vm_compute. reflexivity.
  - vm_compute. reflexivity.
  - vm_compute. reflexivity.
Defined.

(** C1 as stated fails: with [description:] and nothing after the colon the
    header has both fields, every field name is allowed, the name and the
    (empty) description meet all the conditions of the claim, and the skill
    is rejected. *)
Lemma valid_iff_counterexample :
  let content := text ["---"; "name: demo"; "description:"; "---"]%string in
  let frontmatterText := js "name: demo" ++ LF :: js "description:" in
  let w := skill_world content in
  match_frontmatter content = Some frontmatterText
  ∧ unexpectedKeys (parse_frontmatter frontmatterText) = []
  ∧ parse_frontmatter frontmatterText !! js "name" = Some (js "demo")
  ∧ parse_frontmatter frontmatterText !! js "description" = Some []
  ∧ name_well_formed (js "demo")
  ∧ description_well_formed []
  ∧ validateSkill (js "/skills/demo") w
    = (Fulfilled (failure (js "Missing 'description' in frontmatter")), w).
Proof.
  split; [vm_compute; reflexivity|]. split; [vm_compute; reflexivity|].
  split; [vm_compute; reflexivity|]. split; [vm_compute; reflexivity|].
  split; [|split; [|vm_compute; reflexivity]].
  - apply name_rules_spec. vm_compute. repeat split. lia.
  - apply description_rules_spec. vm_compute. repeat split. lia.
Qed.


(** *** C3 *)

Lemma match_frontmatter_None content :
  match_frontmatter content = None
  ↔ ¬ ∃ block rest, content = OPENING ++ block ++ CLOSING ++ rest.
Proof.
  unfold match_frontmatter.
  destruct (startsWith content OPENING) eqn:Ho.
  - apply startsWith_prefix in Ho as [k ->].
    rewrite drop_app_length, lazy_until_None.
    split; intros Hn (a & b & Hk); apply Hn; exists a, b.
    + by apply app_inv_head in Hk.
    + by rewrite Hk.
  - split; [|done]. intros _ (block & rest & ->).
    by rewrite startsWith_app in Ho.
Qed.

Lemma match_frontmatter_first content block rest :
  content = OPENING ++ block ++ CLOSING ++ rest →
  (∀ block' rest', content = OPENING ++ block' ++ CLOSING ++ rest' →
                   length block ≤ length block') →
  match_frontmatter content = Some block.
Proof.
  intros -> Hmin. unfold match_frontmatter.
  rewrite startsWith_app, drop_app_length.
  destruct (lazy_until CLOSING (block ++ CLOSING ++ rest)) as [t|] eqn:Ht.
  - apply lazy_until_Some in Ht as [[rest' Heq] Hfirst].
    assert (length t = length block) as Hlen.
    { apply Nat.le_antisymm; [by eapply Hfirst|].
      eapply Hmin. by rewrite Heq. }
    f_equal. by apply app_inj_1 in Heq as [-> _].
  - apply lazy_until_None in Ht. exfalso. apply Ht. by exists block, rest.
Qed.

(** C3, as the source has it.  For every manifest text whose first line is
    the delimiter, validation fails with "Invalid frontmatter format" if and
    only if the text is not of the form [---], line feed, a block, line feed,
    [---], anything: the closing hyphens need not end their line, and a line
    feed of its own must separate the two delimiters.  When the text has
    that form, the header parsed is the shortest such block, the text up to
    the first line feed followed by [---]. *)
Theorem validateSkill_invalid_frontmatter_iff `{HostApi} skillPath w content :
  files w !! skillMdPath skillPath = Some (RegularFile content) →
  begins_with_delimiter_line content →
  ∃ r, validateSkill skillPath w = (Fulfilled r, w)
    ∧ (message r = js "Invalid frontmatter format"
       ↔ ¬ ∃ block rest, content = OPENING ++ block ++ CLOSING ++ rest)
    ∧ (∀ block rest,
         content = OPENING ++ block ++ CLOSING ++ rest →
         (∀ block' rest', content = OPENING ++ block' ++ CLOSING ++ rest' →
                          length block ≤ length block') →
         r = check_frontmatter (parse_frontmatter block)).
Proof.
  intros Hm Hl%begins_with_delimiter_line_startsWith.
  eexists. split; [by apply validateSkill_readable|].
  unfold validate_content. rewrite Hl. cbn [negb]. split.
  - rewrite <-match_frontmatter_None.
    destruct (match_frontmatter content); [|done].
    split; [|done]. intros Hmsg.
    by apply check_frontmatter_message_other in Hmsg.
  - intros block rest Hc Hmin.
    by rewrite (match_frontmatter_first _ _ _ Hc Hmin).
Qed.

Lemma validateSkill_invalid_frontmatter_iff_witness :
  let content :=
    text ["---"; "name: demo"; "description: A demo"; "---"; "# Demo"]%string in
  let w := skill_world content in
  ∃ r, validateSkill (js "/skills/demo") w = (Fulfilled r, w)
    ∧ (message r = js "Invalid frontmatter format"
       ↔ ¬ ∃ block rest, content = OPENING ++ block ++ CLOSING ++ rest)
    ∧ (∀ block rest,
         content = OPENING ++ block ++ CLOSING ++ rest →
         (∀ block' rest', content = OPENING ++ block' ++ CLOSING ++ rest' →
                          length block ≤ length block') →
         r = check_frontmatter (parse_frontmatter block)).
Proof.
  intros content w.
  apply (validateSkill_invalid_frontmatter_iff (js "/skills/demo") w content).
  - vm_compute. reflexivity.
  - vm_compute. reflexivity.
Defined.

(** C3 as stated fails: in the text of two delimiter lines and nothing
    between them a closing delimiter line follows the opening one, and the
    answer is nevertheless the message of a malformed header. *)
Lemma invalid_frontmatter_counterexample :
  let content := text ["---"; "---"]%string in
  let w := skill_world content in
  begins_with_delimiter_line content
  ∧ closing_delimiter_line_found content
  ∧ validateSkill (js "/skills/demo") w
    = (Fulfilled (failure (js "Invalid frontmatter format")), w).
Proof.
  split; [vm_compute; reflexivity|]. split; [|vm_compute; reflexivity].
  unfold closing_delimiter_line_found. vm_compute. left.
Qed.

(** The other direction fails as well: no line after the first is the
    delimiter, and the header is accepted, because the closing hyphens are
    sought after a line feed but not up to the end of their line. *)
Example closing_delimiter_not_a_line :
  let content :=
    text ["---"; "name: demo"; "description: A demo"; "----"]%string in
  let w := skill_world content in
  ¬ closing_delimiter_line_found content
  ∧ validateSkill (js "/skills/demo") w
    = (Fulfilled (Result true (js "Skill is valid!")), w).
Proof.
  split; [|vm_compute; reflexivity].
  unfold closing_delimiter_line_found. vm_compute.
  intros Hin. repeat (apply elem_of_cons in Hin as [Heq|Hin]; [discriminate|]).
  by apply elem_of_nil in Hin.
Qed.



(** *** C7 *)

Lemma code_unit_leb_total a b :
  code_unit_leb a b = false → code_unit_leb b a = true.
Proof.
  revert b. induction a as [|x a IH]; intros [|y b]; cbn; try done.
  destruct (N.ltb_spec x y) as [Hxy|Hxy]; [done|].
  destruct (N.eqb_spec x y) as [->|Hne].
  - rewrite N.ltb_irrefl, N.eqb_refl. apply IH.
  - intros _. destruct (N.ltb_spec y x); [done|lia].
Qed.

(** The order of [sort] is the lexicographic one: a string comes before the
    strings it is a prefix of, and otherwise the first code unit in which two
    strings differ decides. *)
Lemma code_unit_le_lexicographic a b :
  code_unit_le a b ↔
    a `prefix_of` b
    ∨ ∃ p x y a' b', a = p ++ x :: a' ∧ b = p ++ y :: b' ∧ (x < y)%N.
Proof.
  unfold code_unit_le. revert b.
  induction a as [|x a IH]; intros [|y b]; cbn.
  - split; [intros _; left; done | done].
  - split; [intros _; left; apply prefix_nil | done].
  - split; [done|]. intros [[k Hk]|(p & x' & y' & a' & b' & _ & Hb & _)].
    + done.
    + by destruct p.
  - destruct (N.ltb_spec x y) as [Hlt|Hge].
    + split; [|done]. intros _. right. by exists [], x, y, a, b.
    + destruct (N.eqb_spec x y) as [->|Hne].
      * rewrite IH. split.
        -- intros [Hp|(p & x' & y' & a' & b' & -> & -> & Hlt)].
           ++ left. by apply prefix_cons.
           ++ right. by exists (y :: p), x', y', a', b'.
        -- intros [Hp|(p & x' & y' & a' & b' & Ha & Hb & Hlt)].
           ++ left. by eapply prefix_cons_inv_2.
           ++ destruct p as [|c p]; simplify_eq/=; [lia|].
              right. by exists p, x', y', a', b'.
      * split; [done|].
        intros [Hp|(p & x' & y' & a' & b' & Ha & Hb & Hlt)].
        -- by apply prefix_cons_inv_1 in Hp.
        -- destruct p as [|c p]; simplify_eq/=; lia.
Qed.

Lemma sort_insert_Permutation x l : sort_insert x l ≡ₚ x :: l.
Proof.
  induction l as [|y l IH]; cbn; [done|].
  destruct (code_unit_leb x y); [done|].
  rewrite IH. apply perm_swap.
Qed.

Lemma sort_insert_HdRel z x l :
  code_unit_le z x → HdRel code_unit_le z l →
  HdRel code_unit_le z (sort_insert x l).
Proof.
  intros Hzx Hzl. destruct l as [|y l]; cbn; [by constructor|].
  destruct (code_unit_leb x y); constructor; [done|].
  by inversion Hzl.
Qed.

Lemma sort_insert_Sorted x l :
  Sorted code_unit_le l → Sorted code_unit_le (sort_insert x l).
Proof.
  induction 1 as [|y l Hl IH Hhd]; cbn.
  - by repeat constructor.
  - destruct (code_unit_leb x y) eqn:Hxy.
    + repeat constructor; done.
    + constructor; [done|].
      apply sort_insert_HdRel; [|done]. by apply code_unit_leb_total.
Qed.

Lemma sort_Sorted l : Sorted code_unit_le (sort l).
Proof.
  induction l as [|x l IH]; cbn; [constructor|].
  by apply sort_insert_Sorted.
Qed.

Lemma sort_Permutation l : sort l ≡ₚ l.
Proof.
  induction l as [|x l IH]; cbn; [done|].
  by rewrite sort_insert_Permutation, IH.
Qed.

Lemma NoDup_unexpectedKeys (h : gmap (list N) (list N)) :
  NoDup (unexpectedKeys h).
Proof. apply NoDup_filter, NoDup_fst_map_to_list. Qed.

Lemma head_omap_cons {A B} (f : A → option B) x l :
  head (omap f (x :: l))
  = match f x with Some y => Some y | None => head (omap f l) end.
Proof. cbn. by destruct (f x). Qed.

Lemma lines_until_delimiter_Some lines :
  is_Some (lines_until_delimiter lines) ↔ js "---" ∈ lines.
Proof.
  induction lines as [|line lines IH]; cbn [lines_until_delimiter].
  - split; [by intros [? ?] | by intros ?%elem_of_nil].
  - case_bool_decide as Hline.
    + split; [intros _; rewrite Hline; left | by eexists].
    + rewrite fmap_is_Some, IH, elem_of_cons. split; [by right|].
      by intros [?|?].
Qed.

Lemma header_block_None content :
  begins_with_delimiter_line content →
  header_block content = None ↔ ¬ closing_delimiter_line_found content.
Proof.
  intros Hbegin. unfold header_block, closing_delimiter_line_found.
  rewrite bool_decide_true by done.
  rewrite <-lines_until_delimiter_Some, fmap_None, eq_None_not_Some. done.
Qed.

Lemma name_charset_test name :
  hyphen_case name = bool_decide (name ≠ [] ∧ Forall name_char name).
Proof.
  destruct (hyphen_case name) eqn:Hcase; symmetry.
  - by apply bool_decide_eq_true, hyphen_case_name_char.
  - apply bool_decide_eq_false. rewrite <-hyphen_case_name_char. congruence.
Qed.

Lemma name_hyphen_test name :
  startsWith name (js "-") || endsWith name (js "-") || includes name (js "--")
  = bool_decide (head name = Some HYPHEN ∨ last name = Some HYPHEN)
    || includes name [HYPHEN; HYPHEN].
Proof.
  change (js "--") with [HYPHEN; HYPHEN]. f_equal.
  destruct (startsWith name (js "-") || endsWith name (js "-")) eqn:Htest;
    symmetry.
  - apply bool_decide_eq_true.
    apply orb_true_iff in Htest as [?%startsWith_hyphen|?%endsWith_hyphen];
      auto.
  - apply bool_decide_eq_false.
    apply orb_false_iff in Htest as [Hs He].
    rewrite <-startsWith_hyphen, <-endsWith_hyphen. intros [?|?]; congruence.
Qed.

Lemma angle_brackets_test description :
  includes description (js "<") || includes description (js ">")
  = bool_decide (chr "<" ∈ description ∨ chr ">" ∈ description).
Proof.
  change (js "<") with [chr "<"]. change (js ">") with [chr ">"].
  destruct (includes description [chr "<"] || includes description [chr ">"])
    eqn:Htest; symmetry.
  - apply bool_decide_eq_true.
    apply orb_true_iff in Htest as [?%includes_singleton|?%includes_singleton];
      auto.
  - apply bool_decide_eq_false.
    apply orb_false_iff in Htest as [Hl Hg].
    rewrite <-!includes_singleton. intros [?|?]; congruence.
Qed.

(** The rules on a header, in the order of the source, are the rules 4 to
    11 of the specification on it when neither required field has the empty
    string for a value. *)
Lemma check_frontmatter_rules (manifest : option node)
    (h : gmap (list N) (list N)) :
  manifest_header manifest = Some h →
  h !! js "name" ≠ Some [] → h !! js "description" ≠ Some [] →
  check_frontmatter h
  = match head (omap (violation manifest)
                  [AllowList; NamePresent; DescriptionPresent; NameCharset;
                   NameHyphenPlacement; NameLength; DescriptionAngleBrackets;
                   DescriptionLength]) with
    | Some msg => failure msg
    | None => Result true (js "Skill is valid!")
    end.
Proof.
  intros Hh Hname Hdescription. rewrite !head_omap_cons.
  cbn [omap list_omap head violation]. rewrite Hh. cbn [mbind option_bind].
  unfold check_frontmatter, unexpected_fields.
  change (filter (λ field, field ∉ ALLOWED_PROPERTIES) (keys h))
    with (unexpectedKeys h).
  destruct (unexpectedKeys h); [|reflexivity].
  destruct (h !! js "name") as [[|c name]|]; [done| |reflexivity].
  destruct (h !! js "description") as [[|c' description]|];
    [done| |reflexivity].
  cbn [falsy mbind option_bind].
  rewrite name_charset_test, name_hyphen_test, angle_brackets_test.
  destruct (bool_decide (_ ≠ [] ∧ _)); cbn [negb]; [|reflexivity].
  destruct (_ || _); [reflexivity|].
  destruct (bool_decide (64 < _)); [reflexivity|].
  destruct (bool_decide (_ ∨ _)); [reflexivity|].
  destruct (bool_decide (1024 < _)); reflexivity.
Qed.

(** Where the source reads a manifest as the specification does, its
    verdict is that of the first rule violated in the order of the
    specification.  The readings can differ in four places: the test for
    the opening delimiter, the extent of the header block, the parser, and
    a required field with the empty string for a value. *)
Lemma manifest_verdict_first_violation (manifest : option node) :
  (∀ content, manifest = Some (RegularFile content) →
     (startsWith content (js "---") = true
      ↔ begins_with_delimiter_line content)
     ∧ match_frontmatter content = header_block content
     ∧ ∀ block, header_block content = Some block →
         parse_frontmatter block = parse_header block
         ∧ parse_header block !! js "name" ≠ Some []
         ∧ parse_header block !! js "description" ≠ Some []) →
  manifest_verdict manifest = first_violation manifest.
Proof.
  intros Hsame. destruct manifest as [[|content|reason]|]; try reflexivity.
  destruct (Hsame content eq_refl) as (Hbegin & Hblock & Hparse).
  unfold manifest_verdict, validate_content, first_violation, RULE_ORDER.
  do 3 rewrite head_omap_cons.
  cbn [violation manifest_content mbind option_bind].
  case_bool_decide as Hdelimiter.
  - rewrite (proj2 Hbegin Hdelimiter), Hblock. cbn [negb].
    destruct (header_block content) as [block|] eqn:Hheader.
    + rewrite bool_decide_true; cycle 1.
      { destruct (decide (closing_delimiter_line_found content)); [done|].
        by rewrite (proj2 (header_block_None _ Hdelimiter)) in Hheader. }
      destruct (Hparse block eq_refl) as (-> & Hname & Hdescription).
      apply check_frontmatter_rules; [|done..].
      unfold manifest_header. cbn [manifest_content mbind option_bind].
      by rewrite Hheader.
    + rewrite bool_decide_false; [reflexivity|].
      by apply header_block_None.
  - destruct (startsWith content (js "---")) eqn:Hstarts; [|reflexivity].
    by destruct Hdelimiter; apply Hbegin.
Qed.

Section RuleOrderFacts.
Context `{HostApi}.

(** [validateSkill] on a manifest that the source reads as the
    specification does. *)
Lemma validateSkill_first_violation skillPath w :
  (∀ content,
     files w !! skillMdPath skillPath = Some (RegularFile content) →
     (startsWith content (js "---") = true
      ↔ begins_with_delimiter_line content)
     ∧ match_frontmatter content = header_block content
     ∧ ∀ block, header_block content = Some block →
         parse_frontmatter block = parse_header block
         ∧ parse_header block !! js "name" ≠ Some []
         ∧ parse_header block !! js "description" ≠ Some []) →
  validateSkill skillPath w
  = (Fulfilled (first_violation (files w !! skillMdPath skillPath)), w).
Proof.
  intros Hsame.
  by rewrite validateSkill_run, manifest_verdict_first_violation.
Qed.

(** The allow-list failure of the source, for the mapping it has parsed: a
    key outside the allow-list gets the unexpected-key failure, whatever the
    mapping says of [name]; the message lists exactly the unexpected keys,
    each once, in lexicographic order, and then the allowed ones in
    lexicographic order. *)
Lemma validateSkill_unexpected_keys skillPath w content frontmatterText :
  files w !! skillMdPath skillPath = Some (RegularFile content) →
  match_frontmatter content = Some frontmatterText →
  (∃ k, is_Some (parse_frontmatter frontmatterText !! k)
        ∧ k ∉ ALLOWED_PROPERTIES) →
  ∃ r listed allowed,
    validateSkill skillPath w = (Fulfilled r, w)
    ∧ valid r = false
    ∧ message r
      = js "Unexpected key(s) in SKILL.md frontmatter: "
        ++ join (js ", ") listed
        ++ js ". Allowed properties are: " ++ join (js ", ") allowed
    ∧ Sorted code_unit_le listed ∧ NoDup listed
    ∧ (∀ k, k ∈ listed
            ↔ is_Some (parse_frontmatter frontmatterText !! k)
              ∧ k ∉ ALLOWED_PROPERTIES)
    ∧ allowed = [js "allowed-tools"; js "description"; js "license";
                 js "metadata"; js "name"]
    ∧ Sorted code_unit_le allowed ∧ allowed ≡ₚ ALLOWED_PROPERTIES
    ∧ message r ≠ js "Missing 'name' in frontmatter".
Proof.
  intros Hm Ht (k & Hk & Hout).
  set (h := parse_frontmatter frontmatterText) in *.
  assert (k ∈ unexpectedKeys h) as Hin by by apply elem_of_unexpectedKeys.
  exists (validate_content content), (sort (unexpectedKeys h)),
    (sort ALLOWED_PROPERTIES).
  split; [by apply validateSkill_readable|].
  unfold validate_content.
  rewrite (match_frontmatter_startsWith _ _ Ht), Ht. cbn [negb].
  fold h. unfold check_frontmatter.
  destruct (unexpectedKeys h) as [|k0 ks] eqn:Hu; [by apply elem_of_nil in Hin|].
  rewrite <-Hu. cbn [valid message failure].
  split; [done|]. split; [done|]. split; [apply sort_Sorted|].
  split; [rewrite sort_Permutation; apply NoDup_unexpectedKeys|].
  split; [intros k'; rewrite sort_Permutation; apply elem_of_unexpectedKeys|].
  split; [vm_compute; reflexivity|].
  split; [apply sort_Sorted|]. split; [apply sort_Permutation|].
  unfold unexpected_message. head_differs.
Qed.
End RuleOrderFacts.

(** Scenario D of the specification with the name left out as well: the
    source reads the manifest as the specification does, two rules are
    violated, and the answer is that of the allow-list, the earlier one,
    with the two unexpected keys sorted. *)
Example allow_list_before_name :
  let content :=
    text ["---"; "zeta: 1"; "author: Jane"; "description: A demo"; "---"]%string in
  let w := skill_world content in
  omap (violation (Some (RegularFile content))) RULE_ORDER
  = [js "Unexpected key(s) in SKILL.md frontmatter: author, zeta. Allowed properties are: allowed-tools, description, license, metadata, name";
     js "Missing 'name' in frontmatter"]
  ∧ validateSkill (js "/skills/demo") w
    = (Fulfilled (first_violation (files w !! skillMdPath (js "/skills/demo"))),
       w)
  ∧ message (first_violation (Some (RegularFile content)))
    = js "Unexpected key(s) in SKILL.md frontmatter: author, zeta. Allowed properties are: allowed-tools, description, license, metadata, name".
Proof.
  intros content w. split; [vm_compute; reflexivity|].
  split; [|vm_compute; reflexivity].
  apply validateSkill_first_violation. intros content' Hfile.
  assert (content' = content) as ->.
  { vm_compute in Hfile. injection Hfile as <-. reflexivity. }
  split; [split; [intros _; vm_compute; reflexivity | reflexivity]|].
  split; [vm_compute; reflexivity|].
  intros block Hblock. vm_compute in Hblock. injection Hblock as <-.
  split; [vm_compute; reflexivity|]. split; vm_compute; discriminate.
Qed.

(** An instance of the order: the name below breaks the charset rule and the
    hyphen rule, each judged on its own, and the answer is that of the
    charset rule, the earlier of the two. *)
Example charset_before_hyphens :
  let manifest :=
    Some (RegularFile
            (text ["---"; "name: -Bad"; "description: A demo"; "---"]%string)) in
  is_Some (violation manifest NameCharset)
  ∧ is_Some (violation manifest NameHyphenPlacement)
  ∧ Some (message (manifest_verdict manifest)) = violation manifest NameCharset.
Proof. vm_compute. repeat split; eauto. Qed.

(** C7.  The source and the claim part ways on a header with the field
    [__proto__] and without [name].  By the words of the specification the
    header has a field outside the allow-list, the allow-list rule and the
    rule for the name are both violated, and the first violated rule gives
    the unexpected-key failure that lists [__proto__] before the sorted
    allowed names.  [validateSkill] answers with the missing-name message:
    the line leaves no entry in the mapping the source builds, so its
    allow-list test passes. *)
Theorem first_violated_rule_divergence :
  let content :=
    text ["---"; "__proto__: x"; "description: A demo"; "---"]%string in
  let manifest := Some (RegularFile content) in
  let w := skill_world content in
  (∃ h, manifest_header manifest = Some h
        ∧ h !! PROTO = Some (js "x") ∧ (PROTO ∉ ALLOWED_PROPERTIES)
        ∧ h !! js "name" = None)
  ∧ omap (violation manifest) RULE_ORDER
    = [js "Unexpected key(s) in SKILL.md frontmatter: __proto__. Allowed properties are: allowed-tools, description, license, metadata, name";
       js "Missing 'name' in frontmatter"]
  ∧ first_violation manifest
    = failure (js "Unexpected key(s) in SKILL.md frontmatter: __proto__. Allowed properties are: allowed-tools, description, license, metadata, name")
  ∧ validateSkill (js "/skills/demo") w
    = (Fulfilled (failure (js "Missing 'name' in frontmatter")), w).
Proof.
  intros content manifest w. split.
  { eexists. split; [reflexivity|]. split; [vm_compute; reflexivity|].
    split; [|vm_compute; reflexivity].
    vm_compute. intros Hin.
    repeat (apply elem_of_cons in Hin as [Heq|Hin]; [discriminate|]).
    by apply elem_of_nil in Hin. }
  split; [vm_compute; reflexivity|]. split; vm_compute; reflexivity.
Qed.


(** *** C2 *)

Section PackageFacts.
Context `{HostApi}.

Lemma io_bind_emit {A} e (k : unit → IO A) w :
  io_bind (emit e) k w = k tt (World (files w) (trace w ++ [e])).
Proof. done. Qed.

Lemma io_bind_existsSync {A} p (k : bool → IO A) w :
  io_bind (existsSync p) k w = k (bool_decide (is_Some (files w !! p))) w.
Proof. done. Qed.

Lemma io_bind_isDirectory {A} p n (k : bool → IO A) w :
  files w !! p = Some n →
  io_bind (isDirectory p) k w
  = k (match n with Directory => true | _ => false end) w.
Proof. intros Hn. unfold io_bind, isDirectory. rewrite Hn. by destruct n. Qed.

Lemma io_bind_validateSkill {A} p (k : ValidationResult → IO A) w :
  io_bind (validateSkill p) k w
  = k (manifest_verdict (files w !! skillMdPath p)) w.
Proof. unfold io_bind. by rewrite validateSkill_run. Qed.

Lemma packageSkill_invalid skillPath outputDir w :
  valid (manifest_verdict (files w !! skillMdPath (path_resolve skillPath)))
  = false →
  ∃ w', packageSkill skillPath outputDir w = (Fulfilled None, w')
    ∧ files w' = files w
    ∧ (∃ lines, trace w' = trace w ++ lines
         ∧ ∀ e, e ∈ lines → ∃ line, e = ConsoleLog line ∨ e = ConsoleError line)
    ∧ (files w !! path_resolve skillPath = Some Directory →
       is_Some (files w !! path_join (path_resolve skillPath) (js "SKILL.md")) →
       trace w'
       = trace w
         ++ [ConsoleLog (MAGNIFIER ++ js " Validating skill...");
             ConsoleError
               (CROSS_MARK ++ js " Validation failed: "
                ++ message (manifest_verdict
                              (files w !! skillMdPath (path_resolve skillPath))));
             ConsoleError
               (js "   Please fix the validation errors before packaging.")]).
Proof.
  intros Hinvalid. unfold packageSkill, console_error, console_log.
  rewrite io_bind_existsSync.
  destruct (files w !! path_resolve skillPath) as [n|] eqn:Hdir.
  2:{ rewrite bool_decide_false by (by intros [? ?]). cbn [negb].
      rewrite io_bind_emit. eexists. split; [reflexivity|]. cbn.
      split; [done|]. split; [|done].
      eexists. split; [done|]. intros e ->%list_elem_of_singleton. eauto. }
  rewrite bool_decide_true by done. cbn [negb].
  rewrite (io_bind_isDirectory _ _ _ _ Hdir).
  destruct n; cbn [negb].
  2,3: rewrite io_bind_emit; eexists; (split; [reflexivity|]); cbn;
       (split; [done|]); (split; [|done]);
       eexists; (split; [done|]); intros e ->%list_elem_of_singleton; eauto.
  rewrite io_bind_existsSync.
  destruct (files w !! path_join (path_resolve skillPath) (js "SKILL.md"))
    as [md|] eqn:Hmd.
  2:{ rewrite bool_decide_false by (by intros [? ?]). cbn [negb].
      rewrite io_bind_emit. eexists. split; [reflexivity|]. cbn.
      split; [done|]. split; [|by intros _ [? ?]].
      eexists. split; [done|]. intros e ->%list_elem_of_singleton. eauto. }
  rewrite bool_decide_true by done. cbn [negb].
  rewrite io_bind_emit, io_bind_validateSkill. cbn [files].
  rewrite Hinvalid. cbn [negb]. rewrite !io_bind_emit.
  eexists. split; [reflexivity|]. cbn. split; [done|].
  rewrite <-!app_assoc. cbn [app]. split; [|done].
  eexists. split; [done|]. intros e He.
  repeat (apply elem_of_cons in He as [->|He]; [eauto|]).
  by apply elem_of_nil in He.
Qed.

End PackageFacts.


(** C2, as the source has it.  For every skill on which [validateSkill]
    returns [valid: false], [packageSkill] returns [null] having changed no
    file and invoked neither [mkdir] nor the archiver; and when the skill
    directory exists and contains a [SKILL.md], so that the packager's own
    checks pass and it gets to the validation step, it reports that
    result's message after the prefix that marks a validation failure. *)
Theorem packageSkill_validation_gate `{HostApi} skillPath outputDir w r :
  validateSkill (path_resolve skillPath) w = (Fulfilled r, w) →
  valid r = false →
  ∃ w', packageSkill skillPath outputDir w = (Fulfilled None, w')
    ∧ files w' = files w
    ∧ (∃ lines, trace w' = trace w ++ lines
         ∧ ∀ e, e ∈ lines → ∃ line, e = ConsoleLog line ∨ e = ConsoleError line)
    ∧ (files w !! path_resolve skillPath = Some Directory →
       is_Some (files w !! path_join (path_resolve skillPath) (js "SKILL.md")) →
       trace w'
       = trace w
         ++ [ConsoleLog (MAGNIFIER ++ js " Validating skill...");
             ConsoleError (CROSS_MARK ++ js " Validation failed: " ++ message r);
             ConsoleError
               (js "   Please fix the validation errors before packaging.")]).
Proof.
  rewrite validateSkill_run. intros [= <-] Hinvalid.
  by apply packageSkill_invalid.
Qed.

(** Scenario B of the specification, packaged. *)
Lemma packageSkill_validation_gate_witness :
  let w := skill_world (text ["---"; "name: demo"; "---"]%string) in
  let r := failure (js "Missing 'description' in frontmatter") in
  ∃ w', packageSkill (js "/skills/demo") (Some (js "dist")) w
        = (Fulfilled None, w')
    ∧ files w' = files w
    ∧ (∃ lines, trace w' = trace w ++ lines
         ∧ ∀ e, e ∈ lines → ∃ line, e = ConsoleLog line ∨ e = ConsoleError line)
    ∧ (files w !! path_resolve (js "/skills/demo") = Some Directory →
       is_Some (files w !! path_join (path_resolve (js "/skills/demo"))
                             (js "SKILL.md")) →
       trace w'
       = trace w
         ++ [ConsoleLog (MAGNIFIER ++ js " Validating skill...");
             ConsoleError (CROSS_MARK ++ js " Validation failed: " ++ message r);
             ConsoleError
               (js "   Please fix the validation errors before packaging.")]).
Proof.
  intros w r.
  apply (packageSkill_validation_gate (js "/skills/demo") (Some (js "dist")) w r).
  - vm_compute. reflexivity.
  - reflexivity.
Defined.

(** C2 as stated fails: on a skill directory without a manifest the
    validator answers [valid: false] with "SKILL.md not found", and the
    packager, stopped by its own earlier check, prints one line that is not
    that message behind the validation prefix. *)
Lemma validation_gate_counterexample :
  let w := bare_directory_world in
  let r := failure (js "SKILL.md not found") in
  validateSkill (path_resolve (js "/skills/demo")) w = (Fulfilled r, w)
  ∧ valid r = false
  ∧ ∃ w', packageSkill (js "/skills/demo") None w = (Fulfilled None, w')
      ∧ trace w'
        = [ConsoleError (CROSS_MARK ++ js " Error: SKILL.md not found in "
                         ++ js "/skills/demo")]
      ∧ ConsoleError (CROSS_MARK ++ js " Validation failed: " ++ message r)
        ∉ trace w'.
Proof.
  split; [vm_compute; reflexivity|]. split; [reflexivity|].
  eexists. split; [vm_compute; reflexivity|]. split; [reflexivity|].
  cbn [trace]. intros Hin%list_elem_of_singleton. vm_compute in Hin. discriminate.
Qed.


(** *** C8 *)



(** On that host the run leaves the output directory and, in it, the
    artifact. *)
Example artifact_is_placed :
  let w :=
    skill_world (text ["---"; "name: demo"; "description: A demo"; "---"]%string) in
  let w' :=
    (packageSkill (H:=Archiver.zip_host)
       (js "/skills/demo") (Some (js "dist")) w).2 in
  files w !! js "/work/dist" = None
  ∧ files w' !! js "/work/dist" = Some Directory
  ∧ files w' !! js "/work/dist/demo.skill" = Some (RegularFile (js "PK")).
Proof. vm_compute. repeat split; reflexivity. Qed.


(** *** C9 *)

(** C9.  [validateSkill] always fulfils and leaves the world as it found it,
    files and console alike, so that two calls in a row give the same result
    twice; and the result depends on the world only through what the path of
    the manifest names: two worlds that agree there get the same answer. *)
Theorem validateSkill_read_only `{HostApi} skillPath :
  (∀ w, ∃ r,
      validateSkill skillPath w = (Fulfilled r, w)
      ∧ (r1 ←ᵢ validateSkill skillPath;
         r2 ←ᵢ validateSkill skillPath;
         io_ret (r1, r2)) w = (Fulfilled (r, r), w))
  ∧ (∀ w1 w2,
       files w1 !! skillMdPath skillPath = files w2 !! skillMdPath skillPath →
       (validateSkill skillPath w1).1 = (validateSkill skillPath w2).1).
Proof.
  split.
  - intros w. eexists. split; [apply validateSkill_run|].
    by rewrite !io_bind_validateSkill.
  - intros w1 w2 Hsame. rewrite !validateSkill_run. cbn. by rewrite Hsame.
Qed.

(** Two worlds with the same manifest, one of them with another file and
    earlier console output. *)
Lemma validateSkill_read_only_witness :
  let w1 :=
    skill_world (text ["---"; "name: demo"; "description: A demo"; "---"]%string) in
  let w2 :=
    World (<[js "/skills/demo/scripts/run.js" := RegularFile (js "main()")]>
             (files w1))
          [ConsoleLog (js "earlier output")] in
  (validateSkill (js "/skills/demo") w1).1
  = (validateSkill (js "/skills/demo") w2).1.
Proof.
  intros w1 w2.
  apply (proj2 (validateSkill_read_only (js "/skills/demo")) w1 w2).
  vm_compute. reflexivity.
Defined.


(** *** C6 *)

Lemma split_nonempty sep (s : list N) : split sep s ≠ [].
Proof.
  destruct s as [|c s]; cbn; [done|].
  destruct (N.eqb c sep); [done|]. by destruct (split sep s).
Qed.

Lemma join_cons sep (p : list N) parts :
  parts ≠ [] → join sep (p :: parts) = p ++ sep ++ join sep parts.
Proof. by destruct parts. Qed.

Lemma join_cons_head sep c (p : list N) rest :
  join sep ((c :: p) :: rest) = c :: join sep (p :: rest).
Proof. by destruct rest. Qed.

Lemma join_split sep (s : list N) : join [sep] (split sep s) = s.
Proof.
  induction s as [|c s IH]; [done|]. cbn [split].
  pose proof (split_nonempty sep s) as Hne.
  destruct (N.eqb_spec c sep) as [->|Hc].
  - by rewrite join_cons, IH.
  - destruct (split sep s) as [|piece rest]; [done|].
    by rewrite join_cons_head, IH.
Qed.

Lemma split_first_colon_Some line field value :
  split_first_colon line = Some (field, value) →
  split (chr ":") line = field :: split (chr ":") value.
Proof.
  revert field.
  induction line as [|c line IH]; intros field;
    cbn [split_first_colon split]; [done|].
  destruct (N.eqb c (chr ":")); [by intros [= <- <-]|].
  destruct (split_first_colon line) as [[f v]|]; [|done].
  cbn [fmap option_fmap option_map prod_map fst snd id].
  intros [= <- <-]. by rewrite (IH f eq_refl).
Qed.

Lemma split_first_colon_None line :
  split_first_colon line = None → split (chr ":") line = [line].
Proof.
  induction line as [|c line IH]; cbn [split_first_colon split]; [done|].
  destruct (N.eqb c (chr ":")); [done|].
  destruct (split_first_colon line) as [[f v]|]; [done|].
  intros _. by rewrite IH.
Qed.

(** The loop body in terms of the first colon of the line. *)
Lemma parse_line_field frontmatter line field value :
  trim line ≠ [] → startsWith (trim line) (js "#") = false →
  split_first_colon line = Some (field, value) →
  parse_line frontmatter line
  = assign (trim field) (unquote (trim value)) frontmatter.
Proof.
  intros Hblank Hcomment Hsplit. unfold parse_line.
  rewrite bool_decide_false, Hcomment by done. cbn [orb].
  rewrite (split_first_colon_Some _ _ _ Hsplit).
  pose proof (split_nonempty (chr ":") value).
  rewrite bool_decide_true
    by (cbn [length]; destruct (split (chr ":") value); [done | cbn; lia]).
  cbn [head default drop].
  change (js ":") with [chr ":"]. by rewrite drop_0, join_split.
Qed.

Lemma parse_line_no_colon frontmatter line :
  split_first_colon line = None → parse_line frontmatter line = frontmatter.
Proof.
  intros Hsplit. unfold parse_line.
  rewrite (split_first_colon_None _ Hsplit).
  rewrite (bool_decide_false (2 ≤ _)) by (cbn; lia). by destruct (_ || _).
Qed.

Lemma startsWith_one c q (rest : list N) :
  startsWith (q :: rest) [c] = N.eqb c q.
Proof. cbn [startsWith]. by destruct (N.eqb c q), rest. Qed.

Lemma endsWith_one c q (l : list N) : endsWith (l ++ [q]) [c] = N.eqb c q.
Proof. unfold endsWith. rewrite reverse_snoc. apply startsWith_one. Qed.

Lemma unquote_strip_quotes value :
  value ≠ QUOT → value ≠ APOS → unquote value = strip_quotes value.
Proof.
  intros Hq Ha. destruct value as [|q rest]; [done|].
  unfold unquote, strip_quotes, QUOT.
  change APOS with [39%N] in *. rewrite !startsWith_one.
  destruct rest as [|q' inner _] using rev_ind.
  - rewrite !(endsWith_one _ q []).
    destruct (N.eqb_spec 34 q) as [<-|Hq1]; [done|].
    destruct (N.eqb_spec 39 q) as [<-|Hq3]; done.
  - rewrite !(endsWith_one _ q' (q :: inner)), reverse_snoc.
    unfold slice_1_m1. cbn [length drop]. rewrite length_app. cbn [length].
    replace (S (length inner + 1) - 1 - 1) with (length inner) by lia.
    rewrite drop_0, take_app_length, reverse_involutive.
    destruct (N.eqb 34 q) eqn:E1, (N.eqb 34 q') eqn:E2,
             (N.eqb 39 q) eqn:E3, (N.eqb 39 q') eqn:E4;
      rewrite ?N.eqb_eq, ?N.eqb_neq in *; cbn [andb orb];
      first [ rewrite bool_decide_true by (split; [congruence | auto]); done
            | rewrite bool_decide_false by (intros [? [?|?]]; congruence); done ].
Qed.

Lemma parse_line_refines frontmatter line :
  (∀ field value, split_first_colon line = Some (field, value) →
     trim field ≠ PROTO ∧ trim value ≠ QUOT ∧ trim value ≠ APOS) →
  parse_line frontmatter line = header_line frontmatter line.
Proof.
  intros Hside. unfold header_line.
  destruct (bool_decide (trim line = []) || startsWith (trim line) (js "#"))
    eqn:Hskip.
  { unfold parse_line. by rewrite Hskip. }
  apply orb_false_iff in Hskip as [Hblank%bool_decide_eq_false Hcomment].
  destruct (split_first_colon line) as [[field value]|] eqn:Hsplit.
  - destruct (Hside field value eq_refl) as (Hproto & Hq & Ha).
    rewrite (parse_line_field _ _ _ _ Hblank Hcomment Hsplit).
    unfold assign. rewrite bool_decide_false by done.
    by rewrite unquote_strip_quotes.
  - by apply parse_line_no_colon.
Qed.

(** On a header block without a [__proto__] field and without a value that
    is one quote character, the parser of the source is the one the
    specification describes. *)
Lemma parse_frontmatter_refines block :
  (∀ line field value,
     line ∈ split LF block → split_first_colon line = Some (field, value) →
     trim field ≠ PROTO ∧ trim value ≠ QUOT ∧ trim value ≠ APOS) →
  parse_frontmatter block = parse_header block.
Proof.
  unfold parse_frontmatter, parse_header.
  generalize (∅ : gmap (list N) (list N)).
  induction (split LF block) as [|line lines IH]; intros m Hside; [done|].
  cbn [foldl]. rewrite parse_line_refines by (intros; eapply Hside; [left|done]).
  apply IH. intros l f v Hl. apply Hside. by right.
Qed.

(** C6.  The parser of the source and the parser the claim describes part
    ways on two header blocks.  A value that is one quote character is not
    wrapped in a pair of quotes, and the source stores the empty string for
    it, so that the skill is rejected for a missing description; and a line
    whose field name is [__proto__] leaves no entry in the mapping, so that
    the allow-list rule does not see it. *)
Theorem parse_frontmatter_divergence :
  (let block := js "name: demo" ++ LF :: js "description: " ++ QUOT in
   parse_frontmatter block !! js "description" = Some []
   ∧ parse_header block !! js "description" = Some QUOT
   ∧ check_frontmatter (parse_frontmatter block)
     = failure (js "Missing 'description' in frontmatter")
   ∧ check_frontmatter (parse_header block) = Result true (js "Skill is valid!"))
  ∧ (let block :=
       js "__proto__: x" ++ LF :: js "name: demo"
       ++ LF :: js "description: A demo" in
     parse_frontmatter block !! PROTO = None
     ∧ parse_header block !! PROTO = Some (js "x")
     ∧ check_frontmatter (parse_frontmatter block)
       = Result true (js "Skill is valid!")
     ∧ valid (check_frontmatter (parse_header block)) = false).
Proof. vm_compute. repeat split; reflexivity. Qed.



(** *** C10 *)

Lemma assign_lookup (key value : list N)
    (frontmatter : gmap (list N) (list N)) (k : list N) :
  assign key value frontmatter !! k
  = if bool_decide (key = k ∧ key ≠ PROTO) then Some value
    else frontmatter !! k.
Proof.
  unfold assign. case_bool_decide as Hp.
  - rewrite bool_decide_false; [done|]. intros [_ ?]. done.
  - rewrite lookup_insert. destruct (decide (key = k)) as [->|Hne].
    + by rewrite bool_decide_true.
    + rewrite bool_decide_false; [done|]. intros [? _]. done.
Qed.

(** C10.  For every header line with a field and, after trimming, one quote
    character for a value, the assignment of the loop body stores the empty
    string for the field; when the field is [description] the header is
    rejected, for a missing description once the allow-list and the name
    pass.  The manifest of a name line and a description line whose value
    is one double quote is an instance. *)
Theorem lone_quote_stored_as_empty `{HostApi} :
  (∀ frontmatter line field value,
     trim line ≠ [] → startsWith (trim line) (js "#") = false →
     split_first_colon line = Some (field, value) →
     trim value = QUOT ∨ trim value = APOS →
     parse_line frontmatter line = assign (trim field) [] frontmatter
     ∧ (trim field ≠ PROTO →
        parse_line frontmatter line !! trim field = Some [])
     ∧ (trim field = js "description" →
        valid (check_frontmatter (parse_line frontmatter line)) = false
        ∧ (unexpectedKeys (parse_line frontmatter line) = [] →
           falsy (frontmatter !! js "name") = false →
           check_frontmatter (parse_line frontmatter line)
           = failure (js "Missing 'description' in frontmatter"))))
  ∧ (∀ skillPath w,
       files w !! skillMdPath skillPath
       = Some (RegularFile
                 (js "---" ++ LF :: js "name: my-skill"
                  ++ LF :: js "description: " ++ QUOT ++ LF :: js "---")) →
       validateSkill skillPath w
       = (Fulfilled (failure (js "Missing 'description' in frontmatter")), w)).
Proof.
  split.
  - intros frontmatter line field value Hblank Hcomment Hsplit Hlone.
    rewrite (parse_line_field _ _ _ _ Hblank Hcomment Hsplit).
    assert (unquote (trim value) = []) as -> by (by destruct Hlone as [->| ->]).
    split; [done|]. split.
    { intros Hproto. rewrite assign_lookup. by rewrite bool_decide_true. }
    intros Hfield. rewrite Hfield.
    assert (assign (js "description") [] frontmatter !! js "description"
            = Some []) as Hdesc.
    { rewrite assign_lookup. by rewrite bool_decide_true. }
    assert (assign (js "description") [] frontmatter !! js "name"
            = frontmatter !! js "name") as Hname.
    { rewrite assign_lookup. by rewrite bool_decide_false by (by intros [? _]). }
    unfold check_frontmatter. rewrite Hdesc, Hname. cbn [falsy]. split.
    + destruct (unexpectedKeys _); [|done]. by destruct (falsy _).
    + by intros -> ->.
  - intros skillPath w Hm. rewrite (validateSkill_readable _ _ _ Hm).
    vm_compute. reflexivity.
Qed.

Lemma lone_quote_stored_as_empty_witness :
  let frontmatter : gmap (list N) (list N) :=
    {[ js "name" := js "my-skill" ]} in
  let line := js "description: " ++ QUOT in
  parse_line frontmatter line = assign (js "description") [] frontmatter
  ∧ (js "description" ≠ PROTO →
     parse_line frontmatter line !! js "description" = Some [])
  ∧ (js "description" = js "description" →
     valid (check_frontmatter (parse_line frontmatter line)) = false
     ∧ (unexpectedKeys (parse_line frontmatter line) = [] →
        falsy (frontmatter !! js "name") = false →
        check_frontmatter (parse_line frontmatter line)
        = failure (js "Missing 'description' in frontmatter"))).
Proof.
  intros frontmatter line.
  apply (proj1 lone_quote_stored_as_empty frontmatter line
           (js "description") (js " " ++ QUOT)).
  - vm_compute. discriminate.
  - vm_compute. reflexivity.
  - vm_compute. reflexivity.
  - left. vm_compute. reflexivity.
Defined.

(** * Further properties *)

(** ** [quick_validate.js] *)

Lemma check_frontmatter_valid_message (h : gmap (list N) (list N)) :
  valid (check_frontmatter h) = true
  ↔ message (check_frontmatter h) = js "Skill is valid!".
Proof.
  unfold check_frontmatter, unexpected_message.
  repeat case_match; cbn [valid message failure];
    (split; [try done | try done; head_differs]).
Qed.

Lemma manifest_verdict_valid_message manifest :
  valid (manifest_verdict manifest) = true
  ↔ message (manifest_verdict manifest) = js "Skill is valid!".
Proof.
  destruct manifest as [[|content|reason]|];
    cbn [manifest_verdict valid message failure];
    try (split; [done | head_differs]).
  unfold validate_content.
  destruct (negb _); [split; [done | head_differs]|].
  destruct (match_frontmatter content); [|split; [done | head_differs]].
  apply check_frontmatter_valid_message.
Qed.

(** X1.  In every world [validateSkill] fulfils, and its verdict agrees with
    its message: the result is [valid: true] exactly when the message is
    "Skill is valid!", whatever text a failure message quotes from the
    manifest or from a read error. *)
Theorem validateSkill_valid_iff_message `{HostApi} skillPath w :
  ∃ r, validateSkill skillPath w = (Fulfilled r, w)
    ∧ (valid r = true ↔ message r = js "Skill is valid!").
Proof.
  eexists. split; [apply validateSkill_run|].
  apply manifest_verdict_valid_message.
Qed.

Lemma validateSkill_valid_iff_message_witness :
  let w :=
    skill_world (text ["---"; "name: Demo"; "description: A demo"; "---"]%string) in
  ∃ r, validateSkill (js "/skills/demo") w = (Fulfilled r, w)
    ∧ (valid r = true ↔ message r = js "Skill is valid!").
Proof.
  intros w. exact (validateSkill_valid_iff_message (js "/skills/demo") w).
Defined.

Lemma startsWith_head_ne (a b : N) (s p : list N) :
  a ≠ b → startsWith (a :: s) (b :: p) = false.
Proof. intros Hne. cbn [startsWith]. by rewrite (proj2 (N.eqb_neq b a)). Qed.

Lemma check_frontmatter_not_read_error (h : gmap (list N) (list N)) :
  startsWith (message (check_frontmatter h)) (js "Could not read SKILL.md: ")
  = false.
Proof.
  unfold check_frontmatter, unexpected_message.
  repeat case_match; cbn [message failure]; reflexivity.
Qed.

(** X2.  The two failures that concern the file itself.  The message is
    "SKILL.md not found" exactly when the manifest path names nothing, and
    it begins with "Could not read SKILL.md: " exactly when the path names
    something that cannot be read; the message of the read error follows
    the colon, and the promise still fulfils. *)
Theorem validateSkill_file_errors `{HostApi} skillPath w :
  ∃ r, validateSkill skillPath w = (Fulfilled r, w)
    ∧ (message r = js "SKILL.md not found"
       ↔ files w !! skillMdPath skillPath = None)
    ∧ (startsWith (message r) (js "Could not read SKILL.md: ") = true
       ↔ ∃ n, files w !! skillMdPath skillPath = Some n
              ∧ ∀ content, n ≠ RegularFile content)
    ∧ (∀ reason,
         files w !! skillMdPath skillPath = Some (UnreadableFile reason) →
         r = failure (js "Could not read SKILL.md: " ++ reason)).
Proof.
  eexists. split; [apply validateSkill_run|].
  destruct (files w !! skillMdPath skillPath) as [[|content|reason]|];
    cbn [manifest_verdict message failure].
  - split; [split; [head_differs | done]|].
    split; [|done]. split; [|done]. intros _. by exists Directory.
  - assert (message (validate_content content) ≠ js "SKILL.md not found"
            ∧ startsWith (message (validate_content content))
                (js "Could not read SKILL.md: ") = false) as [Hnf Hre].
    { unfold validate_content. destruct (negb _); [split; [head_differs|done]|].
      destruct (match_frontmatter content); [|split; [head_differs|done]].
      split; [apply check_frontmatter_message_other
             | apply check_frontmatter_not_read_error]. }
    split; [split; done|]. split; [|done]. rewrite Hre. split; [done|].
    intros (n & [= <-] & Hn). by destruct (Hn content).
  - split; [split; [head_differs | done]|].
    split; [|by intros ? [= ->]].
    split; [intros _; by exists (UnreadableFile reason)|].
    intros _. apply startsWith_app.
  - split; [done|]. split; [|done]. split; [done|]. by intros (n & ? & _).
Qed.

Lemma validateSkill_file_errors_witness :
  let w :=
    World (<[js "/skills/demo/SKILL.md"
             := UnreadableFile (js "EACCES: permission denied")]>
             (<[js "/skills/demo" := Directory]> ∅)) [] in
  ∃ r, validateSkill (js "/skills/demo") w = (Fulfilled r, w)
    ∧ (message r = js "SKILL.md not found"
       ↔ files w !! skillMdPath (js "/skills/demo") = None)
    ∧ (startsWith (message r) (js "Could not read SKILL.md: ") = true
       ↔ ∃ n, files w !! skillMdPath (js "/skills/demo") = Some n
              ∧ ∀ content, n ≠ RegularFile content)
    ∧ (∀ reason,
         files w !! skillMdPath (js "/skills/demo")
         = Some (UnreadableFile reason) →
         r = failure (js "Could not read SKILL.md: " ++ reason)).
Proof.
  intros w. exact (validateSkill_file_errors (js "/skills/demo") w).
Defined.

(** A decidable fact about given texts, settled by evaluation. *)
Ltac by_evaluation :=
  match goal with
  | |- ?P => apply (bool_decide_unpack P); vm_compute; exact I
  end.

Lemma split_app_sep sep (a b : list N) :
  split sep (a ++ sep :: b) = split sep a ++ split sep b.
Proof.
  induction a as [|c a IH]; cbn [app split].
  - by rewrite N.eqb_refl.
  - destruct (N.eqb c sep); [by rewrite IH|].
    rewrite IH. pose proof (split_nonempty sep a).
    by destruct (split sep a).
Qed.

Lemma split_no_sep sep (s : list N) : sep ∉ s → split sep s = [s].
Proof.
  induction s as [|c s IH]; [done|]. intros Hnot. cbn [split].
  rewrite (proj2 (N.eqb_neq c sep)) by (intros ->; apply Hnot; left).
  rewrite IH; [done|]. intros Hin. apply Hnot. by right.
Qed.

Lemma parse_frontmatter_snoc block line :
  LF ∉ line →
  parse_frontmatter (block ++ LF :: line)
  = parse_line (parse_frontmatter block) line.
Proof.
  intros Hline. unfold parse_frontmatter.
  by rewrite split_app_sep, foldl_app, (split_no_sep _ _ Hline).
Qed.

Lemma parse_line_proto (m : gmap (list N) (list N)) line :
  m !! PROTO = None → parse_line m line !! PROTO = None.
Proof.
  intros Hm. unfold parse_line. repeat case_match; try done.
  rewrite assign_lookup. by rewrite bool_decide_false by (by intros [-> ?]).
Qed.

(** X3.  Whatever the header block, the parsed frontmatter has no
    [__proto__] entry, so that field name is never among the keys reported
    as unexpected. *)
Theorem parse_frontmatter_never_proto block :
  parse_frontmatter block !! PROTO = None
  ∧ (PROTO ∉ keys (parse_frontmatter block))
  ∧ (PROTO ∉ unexpectedKeys (parse_frontmatter block)).
Proof.
  assert (parse_frontmatter block !! PROTO = None) as Hnone.
  { unfold parse_frontmatter.
    assert ((∅ : gmap (list N) (list N)) !! PROTO = None) as Hm by done.
    revert Hm. generalize (∅ : gmap (list N) (list N)).
    induction (split LF block) as [|line lines IH]; intros m Hm; [done|].
    cbn [foldl]. by apply IH, parse_line_proto. }
  split; [done|]. split.
  - rewrite elem_of_keys, Hnone. by intros [? ?].
  - rewrite elem_of_unexpectedKeys, Hnone. by intros [[? ?] _].
Qed.

(** X4.  A header line is the last word on its field: when a block is
    followed by one more line [field: value], the result is the frontmatter
    of the block with the field set to the trimmed value, quotes handled,
    whatever the block said of that field, every other field being left as
    it was. *)
Theorem parse_frontmatter_last_line_wins block line field value :
  LF ∉ line →
  trim line ≠ [] → startsWith (trim line) (js "#") = false →
  split_first_colon line = Some (field, value) →
  trim field ≠ PROTO →
  parse_frontmatter (block ++ LF :: line)
  = <[trim field := unquote (trim value)]> (parse_frontmatter block).
Proof.
  intros Hline Hblank Hcomment Hsplit Hproto.
  rewrite (parse_frontmatter_snoc _ _ Hline).
  rewrite (parse_line_field _ _ _ _ Hblank Hcomment Hsplit).
  unfold assign. by rewrite bool_decide_false.
Qed.

Lemma parse_frontmatter_last_line_wins_witness :
  let block := js "name: first" ++ LF :: js "license: MIT" in
  parse_frontmatter (block ++ LF :: js "name:  second ")
  = <[js "name" := js "second"]> (parse_frontmatter block).
Proof.
  intros block.
  apply (parse_frontmatter_last_line_wins block (js "name:  second ")
           (js "name") (js "  second ")).
  - by_evaluation.
  - vm_compute. discriminate.
  - vm_compute. reflexivity.
  - vm_compute. reflexivity.
  - vm_compute. discriminate.
Defined.

Lemma split_first_colon_no_colon line :
  chr ":" ∉ line → split_first_colon line = None.
Proof.
  induction line as [|c line IH]; [done|]. intros Hnot.
  cbn [split_first_colon].
  rewrite (proj2 (N.eqb_neq c (chr ":"))) by (intros ->; apply Hnot; left).
  rewrite IH; [done|]. intros Hin. apply Hnot. by right.
Qed.

Lemma parse_line_ignored (m : gmap (list N) (list N)) line :
  trim line = [] ∨ startsWith (trim line) (js "#") = true ∨ chr ":" ∉ line →
  parse_line m line = m.
Proof.
  intros [Hblank|[Hcomment|Hcolon]].
  - unfold parse_line. by rewrite bool_decide_true.
  - unfold parse_line. rewrite Hcomment. by rewrite orb_true_r.
  - by apply parse_line_no_colon, split_first_colon_no_colon.
Qed.

(** X5.  A line that is blank, or a comment, or has no colon, changes
    nothing wherever it stands: between two parts of the block, as its
    first line, as its last line, or alone, the frontmatter is that of the
    block without the line. *)
Theorem parse_frontmatter_ignores_line line :
  LF ∉ line →
  trim line = [] ∨ startsWith (trim line) (js "#") = true ∨ chr ":" ∉ line →
  (∀ before after,
     parse_frontmatter (before ++ LF :: line ++ LF :: after)
     = parse_frontmatter (before ++ LF :: after))
  ∧ (∀ after, parse_frontmatter (line ++ LF :: after) = parse_frontmatter after)
  ∧ (∀ before,
       parse_frontmatter (before ++ LF :: line) = parse_frontmatter before)
  ∧ parse_frontmatter line = ∅.
Proof.
  intros Hline Hignored. unfold parse_frontmatter. repeat split.
  - intros before after.
    rewrite !split_app_sep, (split_no_sep _ _ Hline), !foldl_app.
    cbn [foldl]. by rewrite (parse_line_ignored _ _ Hignored).
  - intros after. rewrite split_app_sep, (split_no_sep _ _ Hline).
    cbn [app foldl]. by rewrite (parse_line_ignored _ _ Hignored).
  - intros before. rewrite split_app_sep, foldl_app, (split_no_sep _ _ Hline).
    cbn [foldl]. by rewrite (parse_line_ignored _ _ Hignored).
  - rewrite (split_no_sep _ _ Hline). cbn [foldl].
    by rewrite (parse_line_ignored _ _ Hignored).
Qed.

Lemma parse_frontmatter_ignores_line_witness :
  let line := js "  # a remark: with a colon" in
  (∀ before after,
     parse_frontmatter (before ++ LF :: line ++ LF :: after)
     = parse_frontmatter (before ++ LF :: after))
  ∧ (∀ after, parse_frontmatter (line ++ LF :: after) = parse_frontmatter after)
  ∧ (∀ before,
       parse_frontmatter (before ++ LF :: line) = parse_frontmatter before)
  ∧ parse_frontmatter line = ∅.
Proof.
  intros line. apply (parse_frontmatter_ignores_line line).
  - by_evaluation.
  - right. left. vm_compute. reflexivity.
Defined.

(** A comment for a first line, as manifests have it. *)
Example leading_comment_ignored :
  parse_frontmatter
    (js "# generated" ++ LF :: js "name: demo" ++ LF :: js "description: A demo")
  = parse_frontmatter (js "name: demo" ++ LF :: js "description: A demo").
Proof. vm_compute. reflexivity. Qed.

(** *** Trimming *)

Lemma trimStart_length (s : list N) : length (trimStart s) ≤ length s.
Proof.
  induction s as [|c s IH]; cbn [trimStart]; [done|].
  destruct (isWhiteSpace c); cbn [length]; lia.
Qed.

Lemma trimEnd_length (s : list N) : length (trimEnd s) ≤ length s.
Proof.
  unfold trimEnd. rewrite length_reverse.
  etrans; [apply trimStart_length|]. by rewrite length_reverse.
Qed.

Lemma trimStart_cons (c : N) (s : list N) :
  isWhiteSpace c = false → trimStart (c :: s) = c :: s.
Proof. intros Hc. cbn [trimStart]. by rewrite Hc. Qed.

Lemma trimStart_snoc (s : list N) (c : N) :
  isWhiteSpace c = false → trimStart (s ++ [c]) = trimStart s ++ [c].
Proof.
  intros Hc. induction s as [|x s IH]; cbn [app trimStart]; [by rewrite Hc|].
  by destruct (isWhiteSpace x).
Qed.

Lemma trimEnd_cons (c : N) (s : list N) :
  isWhiteSpace c = false → trimEnd (c :: s) = c :: trimEnd s.
Proof.
  intros Hc. unfold trimEnd.
  by rewrite reverse_cons, (trimStart_snoc _ _ Hc), reverse_snoc.
Qed.

Lemma trimEnd_snoc (s : list N) (c : N) :
  isWhiteSpace c = false → trimEnd (s ++ [c]) = s ++ [c].
Proof.
  intros Hc. unfold trimEnd.
  by rewrite reverse_snoc, (trimStart_cons _ _ Hc), reverse_cons,
    reverse_involutive.
Qed.

(** A string that [trim] leaves alone does not begin with white space. *)
Lemma trim_fixed_head (c : N) (s : list N) :
  trim (c :: s) = c :: s → isWhiteSpace c = false.
Proof.
  intros Hfix. destruct (isWhiteSpace c) eqn:Hc; [|done].
  exfalso. apply (f_equal length) in Hfix. unfold trim in Hfix.
  cbn [trimStart] in Hfix. rewrite Hc in Hfix.
  pose proof (trimEnd_length (trimStart s)).
  pose proof (trimStart_length s). cbn [length] in Hfix. lia.
Qed.

Lemma split_first_colon_app field rest :
  chr ":" ∉ field →
  split_first_colon (field ++ chr ":" :: rest) = Some (field, rest).
Proof.
  induction field as [|c field IH]; intros Hnot; cbn [app split_first_colon].
  - by rewrite N.eqb_refl.
  - rewrite (proj2 (N.eqb_neq c (chr ":"))) by (intros ->; apply Hnot; left).
    rewrite IH; [done|]. intros Hin. apply Hnot. by right.
Qed.

Lemma unquote_quoted (q : N) (value : list N) :
  q = 34%N ∨ q = 39%N → unquote (q :: value ++ [q]) = value.
Proof.
  intros Hq. unfold unquote, QUOT. change APOS with [39%N].
  rewrite !startsWith_one, !(endsWith_one _ q (q :: value)).
  assert ((34 =? q)%N && (34 =? q)%N || (39 =? q)%N && (39 =? q)%N = true)
    as -> by (by destruct Hq as [->| ->]).
  unfold slice_1_m1. cbn [length drop]. rewrite length_app. cbn [length].
  replace (S (length value + 1) - 1 - 1) with (length value) by lia.
  by rewrite drop_0, take_app_length.
Qed.

(** X6.  Quotes protect a value.  For a field name that is written without
    surrounding white space, has no colon, does not begin a comment and is
    not [__proto__], the line made of the name, a colon, a space and any
    text between two double quotes, or between two single quotes, sets the
    field to that very text: colons, white space at either end and quotes
    inside it are kept. *)
Theorem quoted_value_round_trip
    (frontmatter : gmap (list N) (list N)) (key value : list N) (q : N) :
  q = 34%N ∨ q = 39%N →
  key ≠ [] → trim key = key →
  head key ≠ Some (chr "#") → chr ":" ∉ key → key ≠ PROTO →
  parse_line frontmatter (key ++ js ": " ++ q :: value ++ [q])
  = <[key := value]> frontmatter.
Proof.
  intros Hq Hne Htrim Hhash Hcolon Hproto.
  assert (isWhiteSpace q = false) as Hqws by (by destruct Hq as [->| ->]).
  destruct key as [|c key]; [done|].
  pose proof (trim_fixed_head _ _ Htrim) as Hc.
  set (rest := js " " ++ q :: value ++ [q]).
  assert (trim ((c :: key) ++ js ": " ++ q :: value ++ [q])
          = (c :: key) ++ js ": " ++ q :: value ++ [q]) as Hline.
  { unfold trim. cbn [app]. rewrite (trimStart_cons _ _ Hc).
    replace (c :: key ++ js ": " ++ q :: value ++ [q])
      with ((c :: key ++ js ": " ++ q :: value) ++ [q])
      by (cbn [app]; by rewrite <-!app_assoc).
    by apply trimEnd_snoc. }
  rewrite (parse_line_field frontmatter _ (c :: key) rest).
  - unfold assign. rewrite bool_decide_false by (by rewrite Htrim).
    rewrite Htrim. f_equal. unfold rest, trim.
    change (trimStart (js " " ++ q :: value ++ [q]))
      with (trimStart (q :: value ++ [q])).
    rewrite (trimStart_cons _ _ Hqws).
    replace (q :: value ++ [q]) with ((q :: value) ++ [q]) by done.
    rewrite (trimEnd_snoc _ _ Hqws). by apply unquote_quoted.
  - rewrite Hline. done.
  - rewrite Hline. cbn [app]. apply startsWith_head_ne.
    intros ->. by apply Hhash.
  - unfold rest. change (js ": " ++ ?s) with (chr ":" :: js " " ++ s).
    by apply split_first_colon_app.
Qed.

Lemma quoted_value_round_trip_witness :
  parse_line ∅ (js "description" ++ js ": " ++ 39%N
                :: js " a: b, " ++ QUOT ++ js "c" ++ QUOT ++ js " " ++ [39%N])
  = <[js "description" := js " a: b, " ++ QUOT ++ js "c" ++ QUOT ++ js " "]> ∅.
Proof.
  apply (quoted_value_round_trip ∅ (js "description")
           (js " a: b, " ++ QUOT ++ js "c" ++ QUOT ++ js " ") 39%N).
  - by right.
  - vm_compute. discriminate.
  - vm_compute. reflexivity.
  - vm_compute. discriminate.
  - by_evaluation.
  - vm_compute. discriminate.
Defined.

(** *** The text after the header *)

Lemma lazy_until_closing_first block rest :
  includes block CLOSING = false →
  lazy_until CLOSING (block ++ CLOSING ++ rest) = Some block.
Proof.
  induction block as [|c block IH]; intros Hnone.
  - cbn [app]. destruct rest; reflexivity.
  - cbn [includes] in Hnone. apply orb_false_iff in Hnone as [Hhere Hlater].
    cbn [app lazy_until].
    assert (startsWith (c :: block ++ CLOSING ++ rest) CLOSING = false)
      as ->.
    { destruct (startsWith (c :: block ++ CLOSING ++ rest) CLOSING) eqn:Hs;
        [|done].
      exfalso. apply startsWith_prefix in Hs as [k Hk].
      assert (startsWith (c :: block) CLOSING = true) as Hcontra;
        [|by rewrite Hcontra in Hhere].
      apply startsWith_prefix.
      destruct block as [|x1 [|x2 [|x3 block]]];
        cbn in Hk; try by simplify_eq.
      injection Hk as -> -> -> -> _. by exists block. }
    by rewrite (IH Hlater).
Qed.

(** X7.  The text after the header is not looked at.  When the block
    between the delimiters holds no line feed followed by three hyphens,
    the result is that of the rules on the frontmatter of the block,
    whatever follows the closing hyphens. *)
Theorem validate_content_ignores_body block rest :
  includes block CLOSING = false →
  validate_content (OPENING ++ block ++ CLOSING ++ rest)
  = check_frontmatter (parse_frontmatter block).
Proof.
  intros Hnone. unfold validate_content, match_frontmatter.
  rewrite startsWith_app, drop_app_length.
  rewrite (lazy_until_closing_first _ _ Hnone).
  by destruct (block ++ CLOSING ++ rest).
Qed.

Lemma validate_content_ignores_body_witness :
  validate_content
    (OPENING ++ (js "name: demo" ++ LF :: js "description: A demo")
     ++ CLOSING ++ LF :: js "# Demo <b>skill</b>" ++ LF :: js "---")
  = check_frontmatter
      (parse_frontmatter (js "name: demo" ++ LF :: js "description: A demo")).
Proof.
  apply (validate_content_ignores_body
           (js "name: demo" ++ LF :: js "description: A demo")).
  vm_compute. reflexivity.
Defined.

(** *** The command line *)

(** X8.  [main] of [quick_validate.js] changes no file and prints one line.
    Its exit status is 0 exactly when that line is "Skill is valid!", which
    takes one argument, and is 1 otherwise. *)
Theorem quick_validate_main_exit `{HostApi} args w :
  ∃ code line,
    QuickValidateMain.main args w
    = (Fulfilled code, World (files w) (trace w ++ [ConsoleLog line]))
    ∧ (code = 0%N ↔ line = js "Skill is valid!")
    ∧ (code = 0%N ∨ code = 1%N)
    ∧ (code = 0%N → ∃ skillPath, args = [skillPath]
                      ∧ ∃ r, validateSkill skillPath w = (Fulfilled r, w)
                             ∧ valid r = true).
Proof.
  unfold QuickValidateMain.main, console_log.
  case_bool_decide as Hlen; cbn [negb].
  - destruct args as [|skillPath [|? ?]]; try done.
    rewrite io_bind_validateSkill, io_bind_emit. cbn [head default io_ret].
    destruct (manifest_verdict_valid_message
                (files w !! skillMdPath skillPath)) as [Hv Hm].
    eexists _, _. split; [reflexivity|].
    destruct (valid _) eqn:Hvalid.
    + split; [by rewrite <-Hv|]. split; [by left|]. intros _.
      exists skillPath. split; [done|]. eexists. split; [apply validateSkill_run|done].
    + split; [|split; [by right|done]].
      split; [done|]. intros Hmsg. apply Hm in Hmsg. done.
  - rewrite io_bind_emit. cbn [io_ret]. eexists _, _. split; [reflexivity|].
    split; [split; [done | head_differs]|]. split; [by right|done].
Qed.

Lemma quick_validate_main_exit_witness :
  let w :=
    skill_world (text ["---"; "name: demo"; "description: A demo"; "---"]%string) in
  let args := [js "/skills/demo"] in
  ∃ code line,
    QuickValidateMain.main args w
    = (Fulfilled code, World (files w) (trace w ++ [ConsoleLog line]))
    ∧ (code = 0%N ↔ line = js "Skill is valid!")
    ∧ (code = 0%N ∨ code = 1%N)
    ∧ (code = 0%N → ∃ skillPath, args = [skillPath]
                      ∧ ∃ r, validateSkill skillPath w = (Fulfilled r, w)
                             ∧ valid r = true).
Proof.
  intros w args. exact (quick_validate_main_exit args w).
Defined.

(** ** [package_skill.js] *)

(** The run of [packageSkill], one goal for each way it can end. *)
Ltac run_archive fs :=
  unfold io_bind at 1, io_try, create_archive, console_log;
  rewrite io_bind_emit; unfold io_bind at 1, execAsync; cbn [files trace];
  let e := fresh "e" in let fs2 := fresh "fs2" in let Hex := fresh "Hex" in
  destruct (child_process_exec _ fs) as [[e|] fs2] eqn:Hex;
  rewrite io_bind_emit; cbn [io_ret files trace].

Ltac run_packageSkill skillPath outputDir w :=
  unfold packageSkill, console_error, console_log;
  rewrite io_bind_existsSync;
  let n := fresh "n" in let Hdir := fresh "Hdir" in
  destruct (files w !! path_resolve skillPath) as [n|] eqn:Hdir;
  [ rewrite bool_decide_true by done; cbn [negb];
    rewrite (io_bind_isDirectory _ _ _ _ Hdir);
    destruct n; cbn [negb];
    [ rewrite io_bind_existsSync;
      let md := fresh "md" in let Hmd := fresh "Hmd" in
      destruct (files w !! path_join (path_resolve skillPath) (js "SKILL.md"))
        as [md|] eqn:Hmd;
      [ rewrite bool_decide_true by done; cbn [negb];
        rewrite io_bind_emit, io_bind_validateSkill; cbn [files];
        let Hvalid := fresh "Hvalid" in
        destruct (valid (manifest_verdict
                           (files w !! skillMdPath (path_resolve skillPath))))
          eqn:Hvalid; cbn [negb];
        [ rewrite io_bind_emit; unfold resolve_output;
          let dir := fresh "dir" in let Hout := fresh "Hout" in
          destruct (truthy outputDir) as [dir|] eqn:Hout;
          [ unfold io_bind at 1 2, mkdir_recursive; cbn [files trace];
            let e := fresh "e" in let fs1 := fresh "fs1" in
            let Hmk := fresh "Hmk" in
            destruct (fs_mkdir_recursive (path_resolve dir) (files w))
              as [[e|] fs1] eqn:Hmk;
            [ | cbn [io_ret]; run_archive fs1 ]
          | cbn [io_ret]; unfold io_bind at 1; cbn [io_ret];
            run_archive (files w) ]
        | rewrite !io_bind_emit; cbn [io_ret files trace] ]
      | rewrite bool_decide_false by (by intros [? ?]); cbn [negb];
        rewrite io_bind_emit; cbn [io_ret files trace] ]
    | rewrite io_bind_emit; cbn [io_ret files trace]
    | rewrite io_bind_emit; cbn [io_ret files trace] ]
  | rewrite bool_decide_false by (by intros [? ?]); cbn [negb];
    rewrite io_bind_emit; cbn [io_ret files trace] ].

Lemma truthy_Some (v : option (list N)) dir :
  truthy v = Some dir ↔ v = Some dir ∧ dir ≠ [].
Proof.
  destruct v as [[|c v]|]; cbn [truthy]; split;
    try done; try (by intros [[= <-] ?]).
  by intros [= <-].
Qed.

(** X9.  When packaging succeeds.  [packageSkill] returns an artifact path
    exactly when the resolved skill path is a directory with a [SKILL.md]
    that [validateSkill] accepts, the output directory, if one is given,
    could be made, and the archiver ended without error; the path is then
    the skill's base name with [.skill] in that directory, or in the
    working directory when none is given. *)
Theorem packageSkill_success_iff `{HostApi} skillPath outputDir w artifact :
  (∃ w', packageSkill skillPath outputDir w = (Fulfilled (Some artifact), w'))
  ↔ files w !! path_resolve skillPath = Some Directory
    ∧ is_Some (files w !! path_join (path_resolve skillPath) (js "SKILL.md"))
    ∧ (∃ r, validateSkill (path_resolve skillPath) w = (Fulfilled r, w)
            ∧ valid r = true)
    ∧ match truthy outputDir with
      | Some dir =>
          artifact = path_join (path_resolve dir)
                       (path_basename (path_resolve skillPath) ++ js ".skill")
          ∧ ∃ fs1,
              fs_mkdir_recursive (path_resolve dir) (files w) = (None, fs1)
              ∧ (child_process_exec
                   (zip_command (path_resolve skillPath) artifact) fs1).1
                = None
      | None =>
          artifact = path_join process_cwd
                       (path_basename (path_resolve skillPath) ++ js ".skill")
          ∧ (child_process_exec
               (zip_command (path_resolve skillPath) artifact) (files w)).1
            = None
      end.
Proof.
  split.
  - intros [w' Hrun]. revert Hrun.
    run_packageSkill skillPath outputDir w; try done.
    + intros [= <- <-]. split; [done|]. split; [done|].
      split; [eexists; split; [apply validateSkill_run | done]|].
      split; [done|]. exists fs1. split; [done|]. by rewrite Hex.
    + intros [= <- <-]. split; [done|]. split; [done|].
      split; [eexists; split; [apply validateSkill_run | done]|].
      split; [done|]. by rewrite Hex.
  - intros (Hdir' & Hmd' & (r & Hr & Hv) & Hout').
    rewrite validateSkill_run in Hr. injection Hr as <-.
    assert (∃ res, packageSkill skillPath outputDir w = res
                   ∧ res.1 = Fulfilled (Some artifact)) as ([r w'] & Hrun & Hres);
      [|exists w'; by rewrite Hrun, <-Hres].
    eexists. split; [reflexivity|].
    destruct (truthy outputDir) as [d|] eqn:Ht.
    + destruct Hout' as (-> & fs & Hmk' & Hexec).
      run_packageSkill skillPath outputDir w; simplify_eq;
        try (by destruct Hmd'); try congruence; cbn [fst].
      assert (fs1 = fs) as -> by congruence.
      rewrite Hex in Hexec. done.
    + destruct Hout' as (-> & Hexec).
      run_packageSkill skillPath outputDir w; simplify_eq;
        try (by destruct Hmd'); congruence.
Qed.

Lemma packageSkill_success_iff_witness :
  let w :=
    skill_world (text ["---"; "name: demo"; "description: A demo"; "---"]%string) in
  ∃ w', packageSkill (js "/skills/demo") (Some (js "dist")) w
        = (Fulfilled (Some (js "/work/dist/demo.skill")), w').
Proof.
  intros w.
  apply (proj2 (packageSkill_success_iff (js "/skills/demo") (Some (js "dist"))
                  w (js "/work/dist/demo.skill"))).
  split; [vm_compute; reflexivity|]. split; [by eexists|].
  split; [eexists; split; [vm_compute; reflexivity | reflexivity]|].
  cbn [truthy js fmap list_fmap list_ascii_of_string].
  split; [vm_compute; reflexivity|]. eexists. split; reflexivity.
Defined.

(** X10.  [packageSkill] rejects in one case only: an output directory was
    given and making it failed.  The rejection carries the error of
    [mkdir]; by then the skill has been validated, the archiver has not been
    invoked and nothing has been printed on the error stream. *)
Theorem packageSkill_rejects_only_on_mkdir `{HostApi}
    skillPath outputDir w e w' :
  packageSkill skillPath outputDir w = (Rejected e, w') →
  ∃ dir fs1,
    outputDir = Some dir ∧ dir ≠ []
    ∧ fs_mkdir_recursive (path_resolve dir) (files w) = (Some e, fs1)
    ∧ files w' = fs1
    ∧ (∃ r, validateSkill (path_resolve skillPath) w = (Fulfilled r, w)
            ∧ valid r = true)
    ∧ trace w'
      = trace w
        ++ [ConsoleLog (MAGNIFIER ++ js " Validating skill...");
            ConsoleLog
              (CHECK_MARK ++ js " " ++ js "Skill is valid!" ++ [LF]);
            MkdirRecursive (path_resolve dir)].
Proof.
  run_packageSkill skillPath outputDir w; try done.
  intros [= <- <-]. apply truthy_Some in Hout as [-> Hne].
  exists dir, fs1. split; [done|]. split; [done|]. split; [done|].
  split; [done|].
  split; [eexists; split; [apply validateSkill_run | done]|].
  cbn [trace]. rewrite <-!app_assoc. cbn [app].
  by rewrite (proj1 (manifest_verdict_valid_message _) Hvalid).
Qed.

Lemma packageSkill_rejects_only_on_mkdir_witness :
  let w :=
    skill_world (text ["---"; "name: demo"; "description: A demo"; "---"]%string) in
  let w' :=
    (packageSkill (H:=FullDisk.no_space_host)
       (js "/skills/demo") (Some (js "dist")) w).2 in
  ∃ dir fs1,
    Some (js "dist") = Some dir ∧ dir ≠ []
    ∧ fs_mkdir_recursive (HostApi:=FullDisk.no_space_host)
        (path_resolve (HostApi:=FullDisk.no_space_host) dir) (files w)
      = (Some (js "ENOSPC: no space left on device"), fs1)
    ∧ files w' = fs1
    ∧ (∃ r, validateSkill (H:=FullDisk.no_space_host)
              (path_resolve (HostApi:=FullDisk.no_space_host)
                 (js "/skills/demo")) w
            = (Fulfilled r, w)
            ∧ valid r = true)
    ∧ trace w'
      = trace w
        ++ [ConsoleLog (MAGNIFIER ++ js " Validating skill...");
            ConsoleLog
              (CHECK_MARK ++ js " " ++ js "Skill is valid!" ++ [LF]);
            MkdirRecursive
              (path_resolve (HostApi:=FullDisk.no_space_host) dir)].
Proof.
  intros w w'.
  apply (packageSkill_rejects_only_on_mkdir (H:=FullDisk.no_space_host)
           (js "/skills/demo") (Some (js "dist")) w
           (js "ENOSPC: no space left on device") w').
  vm_compute. reflexivity.
Defined.

Lemma packageSkill_report `{HostApi} skillPath outputDir w r w' :
  packageSkill skillPath outputDir w = (Fulfilled r, w') →
  ∃ new, trace w' = trace w ++ new
    ∧ match r with
      | None =>
          (∃ line, last new = Some (ConsoleError line))
          ∧ ∀ cmd, Exec cmd ∈ new →
              ∃ e,
                child_process_exec cmd
                  match truthy outputDir with
                  | Some dir =>
                      (fs_mkdir_recursive (path_resolve dir) (files w)).2
                  | None => files w
                  end
                = (Some e, files w')
                ∧ last new
                  = Some (ConsoleError
                            (CROSS_MARK ++ js " Error creating .skill file: "
                             ++ e))
      | Some artifact =>
          (∀ line, ConsoleError line ∉ new)
          ∧ last new
            = Some (ConsoleLog
                      (LF :: CHECK_MARK
                       ++ js " Successfully packaged skill to: " ++ artifact))
          ∧ ∃ cmd, Exec cmd ∈ new
      end.
Proof.
  run_packageSkill skillPath outputDir w; try done;
    intros [= <- <-]; cbn [trace files]; rewrite <-?app_assoc; cbn [app];
    (eexists; split; [reflexivity|]); cbn [last];
    (split; [try (by eexists)|]).
  all: try (intros cmd Hin;
            repeat (apply elem_of_cons in Hin as [Heq|Hin];
                    [first [ discriminate Heq
                           | injection Heq as ->; eexists;
                             split; [rewrite ?Hmk; exact Hex | reflexivity] ]|]);
            by apply elem_of_nil in Hin).
  all: try (split; [done|]; eexists;
            repeat first [apply list_elem_of_here | apply list_elem_of_further]).
  all: intros line Hin;
    repeat (apply elem_of_cons in Hin as [Heq|Hin]; [discriminate|]);
    by apply elem_of_nil in Hin.
Qed.

(** X11.  Every failure of [packageSkill] is reported and no success is.
    When it returns [null] the last thing it did was to print on the error
    stream, and if the archiver had been invoked, the archiver failed on
    the file table it was given, the run leaves the table the archiver
    left, and that line carries the archiver's error; when it returns a
    path nothing was printed on the error stream and the last line names
    the path. *)
Theorem packageSkill_failure_is_reported `{HostApi}
    skillPath outputDir w r w' :
  packageSkill skillPath outputDir w = (Fulfilled r, w') →
  ∃ new, trace w' = trace w ++ new
    ∧ match r with
      | None =>
          (∃ line, last new = Some (ConsoleError line))
          ∧ ∀ cmd, Exec cmd ∈ new →
              ∃ e,
                child_process_exec cmd
                  match truthy outputDir with
                  | Some dir =>
                      (fs_mkdir_recursive (path_resolve dir) (files w)).2
                  | None => files w
                  end
                = (Some e, files w')
                ∧ last new
                  = Some (ConsoleError
                            (CROSS_MARK ++ js " Error creating .skill file: "
                             ++ e))
      | Some artifact =>
          (∀ line, ConsoleError line ∉ new)
          ∧ last new
            = Some (ConsoleLog
                      (LF :: CHECK_MARK
                       ++ js " Successfully packaged skill to: " ++ artifact))
      end.
Proof.
  intros (new & Htrace & Hreport)%packageSkill_report.
  exists new. split; [done|]. destruct r as [artifact|]; [|done].
  destruct Hreport as (Hquiet & Hlast & _). done.
Qed.

Lemma packageSkill_failure_is_reported_witness :
  let w :=
    skill_world (text ["---"; "name: demo"; "description: A demo"; "---"]%string) in
  let w' :=
    (packageSkill (H:=Archiver.no_zip_host)
       (js "/skills/demo") (Some (js "dist")) w).2 in
  ∃ new, trace w' = trace w ++ new
    ∧ (∃ line, last new = Some (ConsoleError line))
    ∧ ∀ cmd, Exec cmd ∈ new →
        ∃ e,
          child_process_exec (HostApi:=Archiver.no_zip_host) cmd
            (fs_mkdir_recursive (HostApi:=Archiver.no_zip_host)
               (path_resolve (HostApi:=Archiver.no_zip_host) (js "dist"))
               (files w)).2
          = (Some e, files w')
          ∧ last new
            = Some (ConsoleError
                      (CROSS_MARK ++ js " Error creating .skill file: "
                       ++ e)).
Proof.
  intros w w'.
  apply (packageSkill_failure_is_reported (H:=Archiver.no_zip_host)
           (js "/skills/demo") (Some (js "dist")) w None w').
  vm_compute. reflexivity.
Defined.

(** On the host without [zip] the line printed last ends with the shell's
    complaint. *)
Example archiver_error_is_printed :
  let w :=
    skill_world (text ["---"; "name: demo"; "description: A demo"; "---"]%string) in
  let w' :=
    (packageSkill (H:=Archiver.no_zip_host) (js "/skills/demo") None w).2 in
  last (trace w')
  = Some (ConsoleError
            (CROSS_MARK ++ js " Error creating .skill file: Command failed: "
             ++ js "cd " ++ QUOT ++ js "/skills" ++ QUOT ++ js " && zip -r "
             ++ QUOT ++ js "/work/demo.skill" ++ QUOT ++ js " " ++ QUOT
             ++ js "demo" ++ QUOT ++ LF :: js "/bin/sh: 1: zip: not found"
             ++ [LF])).
Proof. vm_compute. reflexivity. Qed.

Lemma main_banner_quiet (banner new : list event) :
  (∀ e, e ∈ banner → ∃ line, e = ConsoleLog line) →
  (∀ line, ConsoleError line ∉ new) →
  ∀ line, ConsoleError line ∉ banner ++ new.
Proof.
  intros Hbanner Hnew line [Hin|Hin]%elem_of_app.
  - by destruct (Hbanner _ Hin) as [? ?].
  - by apply (Hnew line).
Qed.

(** X12.  The exit status of [main] in [package_skill.js].  It is 0 only
    when a skill path was given, the archiver was invoked and nothing was
    printed on the error stream; otherwise it is 1, and then no argument
    was given, or the last line went to the error stream, or the path
    [packageSkill] returned was the empty string. *)
Theorem package_main_exit `{HostApi} args w code w' :
  PackageSkillMain.main args w = (Fulfilled code, w') →
  ∃ new, trace w' = trace w ++ new
    ∧ (code = 0%N →
       args ≠ [] ∧ (∃ cmd, Exec cmd ∈ new) ∧ ∀ line, ConsoleError line ∉ new)
    ∧ (code ≠ 0%N →
       code = 1%N
       ∧ (args = []
          ∨ (∃ line, last new = Some (ConsoleError line))
          ∨ ∃ w0, packageSkill (default [] (head args))
                    (PackageSkillMain.outputDir_of args) w0
                  = (Fulfilled (Some []), w'))).
Proof.
  unfold PackageSkillMain.main, console_log.
  case_bool_decide as Hlen.
  { destruct args; [|cbn in Hlen; lia].
    rewrite !io_bind_emit. cbn [io_ret files trace]. intros [= <- <-].
    cbn [trace]. rewrite <-!app_assoc. cbn [app].
    eexists. split; [reflexivity|]. split; [done|]. intros _. by split; [|left]. }
  destruct args as [|skillPath rest]; [cbn in Hlen; lia|].
  cbn [head default id]. rewrite io_bind_emit.
  set (out := PackageSkillMain.outputDir_of (skillPath :: rest)).
  assert (∀ banner w0 r w2,
            trace w0 = trace w ++ banner →
            (∀ e, e ∈ banner → ∃ line, e = ConsoleLog line) →
            packageSkill skillPath out w0 = (r, w2) →
            match r with
            | Fulfilled result =>
                match truthy result with
                | Some _ => io_ret 0%N
                | None => io_ret 1%N
                end w2
            | Rejected e => (Rejected e, w2)
            end = (Fulfilled code, w') →
            ∃ new, trace w' = trace w ++ new
              ∧ (code = 0%N →
                 skillPath :: rest ≠ [] ∧ (∃ cmd, Exec cmd ∈ new)
                 ∧ ∀ line, ConsoleError line ∉ new)
              ∧ (code ≠ 0%N →
                 code = 1%N
                 ∧ (skillPath :: rest = []
                    ∨ (∃ line, last new = Some (ConsoleError line))
                    ∨ ∃ w0, packageSkill skillPath out w0
                            = (Fulfilled (Some []), w')))) as Hrest.
  { intros banner w0 r w2 Htrace Hbanner Hrun Hexit.
    destruct r as [result|e]; [|done].
    apply packageSkill_report in Hrun as Hrep.
    destruct Hrep as (new & Hnew & Hreport).
    exists (banner ++ new).
    destruct result as [[|c artifact]|]; cbn [truthy io_ret] in Hexit;
      injection Hexit as <- <-.
    - split; [by rewrite Hnew, Htrace, app_assoc|]. split; [done|].
      intros _. split; [done|]. right. right. by exists w0.
    - split; [by rewrite Hnew, Htrace, app_assoc|]. split; [|done].
      intros _. destruct Hreport as (Hquiet & _ & cmd & Hcmd).
      split; [done|]. split; [exists cmd; set_solver|].
      by apply main_banner_quiet.
    - split; [by rewrite Hnew, Htrace, app_assoc|]. split; [done|].
      intros _. split; [done|]. right. left.
      destruct Hreport as [[line Hlast] _]. exists line.
      rewrite last_app, Hlast. done. }
  destruct out as [dir|] eqn:Hout.
  - rewrite !io_bind_emit. cbn [files trace]. unfold io_bind at 1.
    match goal with
    | |- context [packageSkill skillPath (Some dir) ?w0] =>
        destruct (packageSkill skillPath (Some dir) w0) as [r w2] eqn:Hrun
    end.
    intros Hexit. eapply (Hrest _ _ r w2); [| |exact Hrun|exact Hexit].
    + cbn [trace]. rewrite <-!app_assoc. reflexivity.
    + intros e He. cbn [app] in He.
      repeat (apply elem_of_cons in He as [->|He]; [eauto|]).
      by apply elem_of_nil in He.
  - unfold io_bind at 1. cbn [io_ret]. rewrite io_bind_emit.
    cbn [files trace]. unfold io_bind at 1.
    match goal with
    | |- context [packageSkill skillPath None ?w0] =>
        destruct (packageSkill skillPath None w0) as [r w2] eqn:Hrun
    end.
    intros Hexit. eapply (Hrest _ _ r w2); [| |exact Hrun|exact Hexit].
    + cbn [trace]. rewrite <-!app_assoc. reflexivity.
    + intros e He. cbn [app] in He.
      repeat (apply elem_of_cons in He as [->|He]; [eauto|]).
      by apply elem_of_nil in He.
Qed.

Lemma package_main_exit_witness :
  let w :=
    skill_world (text ["---"; "name: demo"; "description: A demo"; "---"]%string) in
  let args := [js "/skills/demo"; js "dist"] in
  let w' := (PackageSkillMain.main args w).2 in
  ∃ new, trace w' = trace w ++ new
    ∧ (0%N = 0%N →
       args ≠ [] ∧ (∃ cmd, Exec cmd ∈ new) ∧ ∀ line, ConsoleError line ∉ new)
    ∧ (0%N ≠ 0%N →
       0%N = 1%N
       ∧ (args = []
          ∨ (∃ line, last new = Some (ConsoleError line))
          ∨ ∃ w0, packageSkill (default [] (head args))
                    (PackageSkillMain.outputDir_of args) w0
                  = (Fulfilled (Some []), w'))).
Proof.
  intros w args w'. apply (package_main_exit args w 0%N w').
  vm_compute. reflexivity.
Defined.

Import InitSkill ScaffoldSpec ExampleScaffold.

(** ** [init_skill.js] *)

(** *** The title of a skill *)

Lemma join_app_head sep (a p : list N) rest :
  join sep ((a ++ p) :: rest) = a ++ join sep (p :: rest).
Proof. destruct rest; cbn [join]; by rewrite <-?app_assoc. Qed.

Lemma slug_of_title_app a b :
  slug_of_title (a ++ b) = slug_of_title a ++ slug_of_title b.
Proof. apply fmap_app. Qed.

Section TitleCase.
Context `{ScaffoldApi}.
Hypothesis upper_empty : toUpperCase [] = [].
Hypothesis upper_letter :
  ∀ c, (97 ≤ c ≤ 122)%N → toUpperCase [c] = [(c - 32)%N].
Hypothesis upper_digit : ∀ c, (48 ≤ c ≤ 57)%N → toUpperCase [c] = [c].

Lemma slug_of_capital c :
  name_char c → c ≠ 45%N → slug_of_title (toUpperCase [c]) = [c].
Proof.
  intros [Hc|[Hc|Hc]] Hne; [| |done].
  - rewrite (upper_letter _ Hc). unfold slug_of_title. cbn [fmap list_fmap].
    rewrite (proj2 (N.eqb_neq _ _)) by lia.
    rewrite (proj2 (N.leb_le _ _)), (proj2 (N.leb_le _ _)) by lia.
    cbn [andb]. f_equal. lia.
  - rewrite (upper_digit _ Hc). unfold slug_of_title. cbn [fmap list_fmap].
    rewrite (proj2 (N.eqb_neq _ _)) by lia.
    by rewrite (proj2 (N.leb_gt 65 c)) by lia.
Qed.

Lemma slug_of_small c :
  name_char c → c ≠ 45%N → slug_of_title [c] = [c].
Proof.
  intros Hc Hne. unfold slug_of_title. cbn [fmap list_fmap].
  rewrite (proj2 (N.eqb_neq _ _)) by (destruct Hc as [?|[?|?]]; lia).
  destruct Hc as [Hc|[Hc|Hc]]; [| |done].
  - by rewrite (proj2 (N.leb_gt c 90)), andb_false_r by lia.
  - by rewrite (proj2 (N.leb_gt 65 c)) by lia.
Qed.

Lemma titleCase_words name :
  Forall name_char name →
  ∀ word words, split (chr "-") name = word :: words →
    slug_of_title (join (js " ") (capitalize word :: (capitalize <$> words)))
    = name
    ∧ slug_of_title (join (js " ") (word :: (capitalize <$> words))) = name.
Proof.
  induction 1 as [|c name Hc Hname IH]; intros word words.
  { cbn [split]. intros [= <- <-]. unfold capitalize.
    cbn [take drop fmap list_fmap join]. by rewrite upper_empty. }
  cbn [split]. pose proof (split_nonempty (chr "-") name) as Hne.
  destruct (split (chr "-") name) as [|word' words'] eqn:Hsplit; [done|].
  destruct (IH word' words' eq_refl) as [IH1 IH2].
  destruct (N.eqb_spec c (chr "-")) as [->|Hhyphen]; intros [= <- <-].
  - cbn [fmap list_fmap]. unfold capitalize at 1. cbn [take drop].
    rewrite upper_empty. cbn [app].
    rewrite (join_cons _ []) by done. cbn [app].
    by rewrite slug_of_title_app, IH1.
  - unfold capitalize at 1. cbn [take drop]. rewrite take_0, drop_0.
    rewrite join_app_head, slug_of_title_app, IH2.
    rewrite (slug_of_capital _ Hc Hhyphen). split; [done|].
    rewrite join_cons_head.
    change (c :: ?l) with ([c] ++ l) at 1.
    by rewrite slug_of_title_app, IH2, (slug_of_small _ Hc Hhyphen).
Qed.

End TitleCase.

(** X13.  The title determines the name.  For a name of small letters,
    digits and hyphens, and a [toUpperCase] that maps the small letters to
    the capital ones and leaves digits and the empty string alone, the title
    has as many code units as the name, and putting hyphens back for its
    spaces and small letters for its capitals gives the name again. *)
Theorem titleCaseSkillName_round_trip `{ScaffoldApi} name :
  toUpperCase [] = [] →
  (∀ c, (97 ≤ c ≤ 122)%N → toUpperCase [c] = [(c - 32)%N]) →
  (∀ c, (48 ≤ c ≤ 57)%N → toUpperCase [c] = [c]) →
  Forall name_char name →
  slug_of_title (titleCaseSkillName name) = name
  ∧ length (titleCaseSkillName name) = length name.
Proof.
  intros Hempty Hletter Hdigit Hname.
  assert (slug_of_title (titleCaseSkillName name) = name) as Hslug.
  { unfold titleCaseSkillName.
    pose proof (split_nonempty (chr "-") name) as Hne.
    destruct (split (chr "-") name) as [|word words] eqn:Hsplit; [done|].
    by apply (titleCase_words Hempty Hletter Hdigit name Hname word words). }
  split; [done|].
  rewrite <-Hslug at 2. unfold slug_of_title. by rewrite length_fmap.
Qed.

Lemma titleCaseSkillName_round_trip_witness :
  slug_of_title (titleCaseSkillName (js "pdf-2-text")) = js "pdf-2-text"
  ∧ length (titleCaseSkillName (js "pdf-2-text")) = length (js "pdf-2-text").
Proof.
  apply (titleCaseSkillName_round_trip (H:=scaffold_host) (js "pdf-2-text")).
  - reflexivity.
  - intros c Hc. cbn. unfold upper.
    by rewrite (proj2 (N.leb_le _ _)), (proj2 (N.leb_le _ _)) by lia.
  - intros c Hc. cbn. unfold upper.
    by rewrite (proj2 (N.leb_gt _ _)) by lia.
  - apply Forall_forall. intros c Hc. apply hyphen_case_char_spec.
    revert c Hc. apply Forall_forall. by_evaluation.
Defined.

(** *** Replacing a placeholder *)

Lemma expand_cons_ne c r matched before after :
  c ≠ 36%N →
  expand (c :: r) matched before after = c :: expand r matched before after.
Proof.
  intros Hc. destruct c as [|p]; [done|].
  do 6 (destruct p as [p|p|]; try reflexivity). done.
Qed.

Lemma expand_plain r matched before after :
  36%N ∉ r → expand r matched before after = r.
Proof.
  induction r as [|c r IH]; [done|]. intros Hnot.
  rewrite expand_cons_ne by (intros ->; apply Hnot; left).
  rewrite IH; [done|]. intros Hin. apply Hnot. by right.
Qed.

Lemma replace_from_skip pat repl a before s :
  replace_from pat repl (length a) before (a ++ s)
  = replace_from pat repl 0 (before ++ a) s.
Proof.
  revert before. induction a as [|c a IH]; intros before.
  - by rewrite app_nil_r.
  - cbn [length app replace_from]. rewrite IH. by rewrite <-app_assoc.
Qed.

Lemma replace_from_prefix c0 pat repl a before s :
  c0 ∉ a →
  replace_from (c0 :: pat) repl 0 before (a ++ s)
  = a ++ replace_from (c0 :: pat) repl 0 (before ++ a) s.
Proof.
  revert before. induction a as [|c a IH]; intros before Hnot.
  - by rewrite app_nil_r.
  - cbn [app replace_from].
    rewrite startsWith_head_ne by (intros ->; apply Hnot; left).
    rewrite IH by (intros Hin; apply Hnot; by right).
    by rewrite <-app_assoc.
Qed.

Lemma replace_from_match c0 pat repl before s :
  replace_from (c0 :: pat) repl 0 before ((c0 :: pat) ++ s)
  = expand repl (c0 :: pat) before s
    ++ replace_from (c0 :: pat) repl 0 (before ++ c0 :: pat) s.
Proof.
  cbn [app replace_from].
  change (c0 :: pat ++ s) with ((c0 :: pat) ++ s).
  rewrite startsWith_app, drop_app_length.
  replace (length (c0 :: pat) - 1) with (length pat) by (cbn [length]; lia).
  rewrite (replace_from_skip _ _ pat). by rewrite <-app_assoc.
Qed.

Lemma replace_from_no_match pat repl before s :
  includes s pat = false → replace_from pat repl 0 before s = s.
Proof.
  revert before. induction s as [|c s IH]; intros before; [done|].
  cbn [includes replace_from]. intros [-> Hlater]%orb_false_iff.
  by rewrite IH.
Qed.

Lemma includes_app_no_head c0 pat a s :
  c0 ∉ a → includes (a ++ s) (c0 :: pat) = includes s (c0 :: pat).
Proof.
  induction a as [|c a IH]; intros Hnot; [done|].
  cbn [app includes].
  rewrite startsWith_head_ne by (intros ->; apply Hnot; left).
  cbn [orb]. apply IH. intros Hin. apply Hnot. by right.
Qed.

(** *** The manifest of a new skill *)

(** What [initSkill] writes to [SKILL.md] begins with the two header lines
    of the template, the name in place of its placeholder. *)
Lemma skillContent_header `{ScaffoldApi} skillName :
  (36%N ∉ skillName) → (123%N ∉ skillName) →
  ∃ body,
    skillContent skillName
    = OPENING
      ++ (js "name: " ++ skillName
          ++ LF :: js "description: " ++ QUOT ++ TEMPLATE_DESCRIPTION ++ QUOT)
      ++ CLOSING ++ body.
Proof.
  intros Hdollar Hbrace. unfold skillContent, replace_all.
  set (H1 := OPENING ++ js "name: ").
  set (H2 := LF :: js "description: " ++ QUOT ++ TEMPLATE_DESCRIPTION ++ QUOT
             ++ CLOSING).
  set (T2 := drop (length (H1 ++ SKILL_NAME ++ H2)) SKILL_TEMPLATE).
  assert (SKILL_TEMPLATE = H1 ++ SKILL_NAME ++ H2 ++ T2) as ->
    by (vm_compute; reflexivity).
  assert (123%N ∉ H1) as Hhead by by_evaluation.
  assert (123%N ∉ H2) as Hrest by by_evaluation.
  change SKILL_NAME with (123%N :: js "skill_name}").
  rewrite (replace_from_prefix _ _ _ H1) by done.
  rewrite replace_from_match, (expand_plain _ _ _ _ Hdollar).
  rewrite (replace_from_prefix _ _ _ H2) by done.
  match goal with
  | |- context [H2 ++ ?r] => generalize r; intros R2
  end.
  change SKILL_TITLE with (123%N :: js "skill_title}").
  replace (H1 ++ skillName ++ H2 ++ R2)
    with ((H1 ++ skillName ++ H2) ++ R2) by by rewrite <-!app_assoc.
  rewrite replace_from_prefix
    by (rewrite !not_elem_of_app; by repeat split).
  eexists. unfold H1, H2. rewrite <-!app_assoc. cbn [app].
  repeat f_equal.
Qed.

Lemma name_char_not_white c : name_char c → isWhiteSpace c = false.
Proof.
  intros Hc. apply not_true_is_false. intros Hw.
  assert (bool_decide (c < 127)%N = true) as Hsmall
    by (apply bool_decide_eq_true; destruct Hc as [?|[?|?]]; lia).
  unfold isWhiteSpace in Hw.
  repeat (apply orb_true_iff in Hw as [Hw|Hw]);
    rewrite ?andb_true_iff, ?N.leb_le, ?N.eqb_eq in Hw;
    destruct Hc as [?|[?|?]]; lia.
Qed.

Lemma trim_name name : Forall name_char name → trim name = name.
Proof.
  intros Hname. destruct name as [|c name]; [done|].
  unfold trim. rewrite trimStart_cons
    by (apply name_char_not_white; by inversion Hname).
  destruct (c :: name) as [|x l _] using rev_ind; [done|].
  apply trimEnd_snoc, name_char_not_white.
  apply Forall_app in Hname as [_ Hx]. by inversion Hx.
Qed.

Lemma unquote_name name : Forall name_char name → unquote name = name.
Proof.
  intros Hname. unfold unquote. destruct name as [|c name]; [done|].
  assert (c ≠ 34%N ∧ c ≠ 39%N) as [Hq Ha].
  { inversion Hname as [|? ? [?|[?|?]] _]; subst; lia. }
  unfold QUOT, APOS. change (js "'") with [39%N].
  by rewrite !startsWith_head_ne.
Qed.

(** The frontmatter of the manifest of a new skill. *)
Lemma skillContent_frontmatter `{ScaffoldApi} skillName :
  (LF ∉ skillName) → (36%N ∉ skillName) → (123%N ∉ skillName) →
  validate_content (skillContent skillName)
  = check_frontmatter
      (<[js "description" := TEMPLATE_DESCRIPTION]>
         (<[js "name" := unquote (trim skillName)]> ∅)).
Proof.
  intros Hlf Hdollar Hbrace.
  destruct (skillContent_header skillName Hdollar Hbrace) as [body ->].
  set (description_line :=
         js "description: " ++ QUOT ++ TEMPLATE_DESCRIPTION ++ QUOT).
  unfold validate_content, match_frontmatter.
  rewrite startsWith_app, drop_app_length.
  rewrite lazy_until_closing_first; cycle 1.
  { replace (js "name: " ++ skillName ++ LF :: description_line)
      with ((js "name: " ++ skillName) ++ LF :: description_line)
      by by rewrite <-app_assoc.
    unfold CLOSING. rewrite includes_app_no_head.
    - vm_compute. reflexivity.
    - rewrite not_elem_of_app. split; [by_evaluation | done]. }
  assert (negb (startsWith
            (OPENING ++ (js "name: " ++ skillName ++ LF :: description_line)
             ++ CLOSING ++ body) (js "---")) = false) as -> by done.
  f_equal.
  replace (js "name: " ++ skillName ++ LF :: description_line)
    with ((js "name: " ++ skillName) ++ LF :: description_line)
    by by rewrite <-app_assoc.
  rewrite parse_frontmatter_snoc by by_evaluation.
  unfold parse_frontmatter.
  rewrite split_no_sep
    by (rewrite not_elem_of_app; split; [by_evaluation | done]).
  cbn [foldl].
  rewrite (parse_line_field ∅ _ (js "name") (js " " ++ skillName)); cycle 1.
  { unfold trim. change (js "name: " ++ skillName)
      with (110%N :: js "ame: " ++ skillName).
    rewrite trimStart_cons, trimEnd_cons by done. done. }
  { unfold trim. change (js "name: " ++ skillName)
      with (110%N :: js "ame: " ++ skillName).
    rewrite trimStart_cons, trimEnd_cons by done.
    by apply startsWith_head_ne. }
  { change (js "name: " ++ skillName)
      with (js "name" ++ chr ":" :: js " " ++ skillName).
    apply split_first_colon_app. by_evaluation. }
  rewrite (parse_line_field _ description_line (js "description")
             (js " " ++ QUOT ++ TEMPLATE_DESCRIPTION ++ QUOT));
    [|by vm_compute|by vm_compute|by vm_compute].
  change (trim (js " " ++ skillName)) with (trim skillName).
  assert (unquote (trim (js " " ++ QUOT ++ TEMPLATE_DESCRIPTION ++ QUOT))
          = TEMPLATE_DESCRIPTION) as -> by (vm_compute; reflexivity).
  unfold assign. by rewrite !bool_decide_false by by_evaluation.
Qed.

(** The rules on the frontmatter of a new skill come down to those on the
    name. *)
Lemma new_skill_frontmatter_valid name :
  valid (check_frontmatter
           (<[js "description" := TEMPLATE_DESCRIPTION]>
              (<[js "name" := name]> ∅))) = true
  ↔ name_well_formed name.
Proof.
  rewrite valid_check_frontmatter, <-name_rules_spec.
  unfold name_of, description_of.
  rewrite lookup_insert_ne, !lookup_insert_eq by by_evaluation.
  cbn [default id].
  assert (unexpectedKeys
            (<[js "description" := TEMPLATE_DESCRIPTION]>
               (<[js "name" := name]> ∅)) = []) as ->.
  { apply unexpectedKeys_nil. intros k [v Hk].
    apply lookup_insert_Some in Hk as [[<- _]|[_ Hk]]; [by_evaluation|].
    apply lookup_insert_Some in Hk as [[<- _]|[_ Hk]]; [by_evaluation|done]. }
  assert (includes TEMPLATE_DESCRIPTION (js "<") = false) as ->
    by (vm_compute; reflexivity).
  assert (includes TEMPLATE_DESCRIPTION (js ">") = false) as ->
    by (vm_compute; reflexivity).
  assert (length TEMPLATE_DESCRIPTION ≤ 1024) by (vm_compute; lia).
  assert (falsy (Some TEMPLATE_DESCRIPTION) = false) as -> by done.
  split; [tauto|]. intros (Hcase & ?). repeat split; try tauto; try lia.
  destruct name; [discriminate Hcase | done].
Qed.

Lemma name_char_plain name (c : N) :
  Forall name_char name → ¬ name_char c → c ∉ name.
Proof.
  intros Hname Hc Hin. apply Hc. clear Hc. revert c Hin.
  by apply Forall_forall.
Qed.

(** X14.  The scaffolder and the validator.  For a skill name without line
    feed, dollar sign and opening brace, the manifest that [initSkill]
    writes passes the validator exactly when the name, trimmed and
    unquoted as the validator reads it, is well formed: the template's
    description and the rest of the manifest never stand in the way. *)
Theorem skillContent_valid_iff `{ScaffoldApi} skillName :
  (LF ∉ skillName) → (36%N ∉ skillName) → (123%N ∉ skillName) →
  valid (validate_content (skillContent skillName)) = true
  ↔ name_well_formed (unquote (trim skillName)).
Proof.
  intros Hlf Hdollar Hbrace.
  rewrite (skillContent_frontmatter _ Hlf Hdollar Hbrace).
  apply new_skill_frontmatter_valid.
Qed.

Lemma skillContent_valid_iff_witness :
  valid (validate_content (skillContent (js " 'pdf-2-text' "))) = true
  ↔ name_well_formed (unquote (trim (js " 'pdf-2-text' "))).
Proof.
  apply (skillContent_valid_iff (js " 'pdf-2-text' ")); by_evaluation.
Defined.

(** X15.  A skill made by [initSkill] validates.  When the name is well
    formed and the manifest of a skill directory holds what [initSkill]
    writes for that name, [validateSkill] answers [valid: true] with
    "Skill is valid!". *)
Theorem scaffolded_skill_validates `{HostApi} `{ScaffoldApi}
    skillName skillPath w :
  name_well_formed skillName →
  files w !! skillMdPath skillPath
  = Some (RegularFile (skillContent skillName)) →
  validateSkill skillPath w
  = (Fulfilled (Result true (js "Skill is valid!")), w).
Proof.
  intros Hname Hfile. rewrite (validateSkill_readable _ _ _ Hfile).
  do 2 f_equal.
  pose proof Hname as [[_ Hchars] _].
  rewrite skillContent_frontmatter;
    [|apply (name_char_plain _ _ Hchars); unfold name_char, LF; lia..].
  rewrite (trim_name _ Hchars), (unquote_name _ Hchars).
  apply new_skill_frontmatter_valid in Hname as Hvalid.
  pose proof Hvalid as Hmessage.
  apply check_frontmatter_valid_message in Hmessage.
  destruct (check_frontmatter _) as [v m]. cbn in Hvalid, Hmessage.
  by subst.
Qed.

Lemma scaffolded_skill_validates_witness :
  validateSkill (js "/skills/demo")
    (skill_world (skillContent (js "pdf-2-text")))
  = (Fulfilled (Result true (js "Skill is valid!")),
     skill_world (skillContent (js "pdf-2-text"))).
Proof.
  apply (scaffolded_skill_validates (js "pdf-2-text")).
  - apply name_rules_spec. vm_compute. repeat split; lia.
  - vm_compute. reflexivity.
Defined.

(** *** Running the scaffolder *)

Lemma task_bind_perform {B} s call (k : unit → Task B) d :
  task_bind (perform s call) k d
  = match call (entries d) with
    | (None, fs') => k tt (Disk fs' (journal d ++ [s]))
    | (Some e, fs') => (Rejected e, Disk fs' (journal d ++ [s]))
    end.
Proof. unfold task_bind, perform. by destruct (call (entries d)) as [[e|] fs']. Qed.

Lemma task_bind_record {B} s (k : unit → Task B) d :
  task_bind (record s) k d = k tt (Disk (entries d) (journal d ++ [s])).
Proof. reflexivity. Qed.

Lemma task_bind_exists_sync {B} p (k : bool → Task B) d :
  task_bind (exists_sync p) k d
  = k (bool_decide (is_Some (entries d !! p))) d.
Proof. reflexivity. Qed.

Ltac scaffold_branch Hrun :=
  rewrite <-?app_assoc in Hrun; cbn [app] in Hrun;
  injection Hrun as <- <-; cbn [journal];
  eexists; split; [reflexivity|];
  cbn [file_steps List.filter is_file_step];
  split; [unfold plan; eexists; reflexivity|];
  split; [reflexivity|];
  split; [repeat (constructor; [by intros [? ?]|]); constructor|];
  try exact I; try (split; reflexivity).

Ltac scaffold_step Hrun :=
  first
    [ rewrite task_bind_record in Hrun; cbn [entries journal] in Hrun
    | rewrite task_bind_perform in Hrun; cbn [entries journal] in Hrun;
      match type of Hrun with
      | match ?call with _ => _ end = _ =>
          destruct call as [[?|] ?]; [by scaffold_branch Hrun|]
      end ].

(** The [try] block attempts the calls of the plan in order, the
    directory of the skill first, and stops at the first that fails. *)
Lemma scaffold_run `{HostApi} `{ScaffoldApi} skillName skillDir d res d' :
  scaffold skillName skillDir d = (res, d') →
  ∃ done,
    journal d' = journal d ++ done
    ∧ file_steps done `prefix_of` plan skillName skillDir
    ∧ head done = Some (Mkdir true skillDir)
    ∧ Forall (λ s, ¬ is_log_error s) done
    ∧ match res with
      | Fulfilled r => r = Some skillDir
                       ∧ file_steps done = plan skillName skillDir
      | Rejected _ => True
      end.
Proof.
  intros Hrun. unfold scaffold, mkdir, writeFile, chmod, log in Hrun.
  repeat scaffold_step Hrun.
  unfold task_ret in Hrun. by scaffold_branch Hrun.
Qed.

Lemma file_steps_app a b : file_steps (a ++ b) = file_steps a ++ file_steps b.
Proof. apply List.filter_app. Qed.

(** The two ways through [initSkill]. *)
Lemma initSkill_run `{HostApi} `{ScaffoldApi} skillName outputPath d :
  let skillDir := path_resolve_from outputPath skillName in
  (is_Some (entries d !! skillDir)
   ∧ initSkill skillName outputPath d
     = (Fulfilled None,
        Disk (entries d)
          (journal d
           ++ [LogError (CROSS_MARK
                         ++ js " Error: Skill directory already exists: "
                         ++ skillDir)])))
  ∨ (entries d !! skillDir = None
     ∧ ∃ res d1,
         scaffold skillName skillDir d = (res, d1)
         ∧ initSkill skillName outputPath d
           = match res with
             | Fulfilled r => (Fulfilled r, d1)
             | Rejected e =>
                 (Fulfilled None,
                  Disk (entries d1)
                    (journal d1
                     ++ [LogError (CROSS_MARK
                                   ++ js " Error initializing skill: "
                                   ++ e)]))
             end).
Proof.
  intros skillDir. unfold initSkill. fold skillDir.
  rewrite task_bind_exists_sync.
  destruct (decide (is_Some (entries d !! skillDir))) as [Hdir|Hdir].
  - left. split; [done|]. by rewrite bool_decide_true.
  - right. split; [by apply eq_None_not_Some|].
    exists (scaffold skillName skillDir d).1, (scaffold skillName skillDir d).2.
    split; [by destruct (scaffold skillName skillDir d)|].
    rewrite bool_decide_false by done.
    unfold task_bind at 1, task_try.
    by destruct (scaffold skillName skillDir d) as [[r|e] d1].
Qed.

(** X16.  [initSkill] never rejects, and it says so when it fails.  It
    returns either [null] or the directory of the skill; it returns [null]
    exactly when the last line it printed went to [console.error] and
    begins with the cross mark and [Error]; and it returns the directory
    only where nothing had that path before. *)
Theorem initSkill_reports `{HostApi} `{ScaffoldApi} skillName outputPath d :
  ∃ r d' done,
    initSkill skillName outputPath d = (Fulfilled r, d')
    ∧ journal d' = journal d ++ done
    ∧ (r = None ∨ r = Some (path_resolve_from outputPath skillName))
    ∧ (r = None
       ↔ ∃ line,
           last done = Some (LogError (CROSS_MARK ++ js " Error" ++ line)))
    ∧ (is_Some r
       → entries d !! path_resolve_from outputPath skillName = None).
Proof.
  destruct (initSkill_run skillName outputPath d)
    as [[Hdir ->]|(Hdir & res & d1 & Hrun & ->)].
  - eexists _, _, _. split; [reflexivity|]. cbn [journal].
    split; [reflexivity|]. split; [by left|]. split.
    + split; [|done]. intros _.
      by exists (js ": Skill directory already exists: "
                 ++ path_resolve_from outputPath skillName).
    + by intros [? [=]].
  - destruct (scaffold_run _ _ _ _ _ Hrun)
      as (done & Hjournal & _ & Hhead & Hquiet & Hres).
    destruct res as [r|e].
    + destruct Hres as [-> _]. eexists _, _, done.
      split; [reflexivity|]. split; [done|]. split; [by right|]. split.
      * split; [done|]. intros [line Hlast].
        apply last_Some in Hlast as [done' ->].
        apply Forall_app in Hquiet as [_ Hquiet].
        inversion Hquiet as [|? ? Hno _]. destruct Hno. by eexists.
      * done.
    + eexists _, _, (done ++ [_]). split; [reflexivity|]. cbn [journal].
      split; [by rewrite Hjournal, <-app_assoc|]. split; [by left|]. split.
      * split; [|done]. intros _. rewrite last_snoc.
        by exists (js " initializing skill: " ++ e).
      * by intros [? [=]].
Qed.

Lemma initSkill_reports_witness :
  ∃ r d' done,
    initSkill (H0:=read_only_host) (js "demo") (js "/skills") empty_disk
    = (Fulfilled r, d')
    ∧ journal d' = journal empty_disk ++ done
    ∧ (r = None
       ∨ r = Some (path_resolve_from (ScaffoldApi:=read_only_host)
                     (js "/skills") (js "demo")))
    ∧ (r = None
       ↔ ∃ line,
           last done = Some (LogError (CROSS_MARK ++ js " Error" ++ line)))
    ∧ (is_Some r
       → entries empty_disk
         !! path_resolve_from (ScaffoldApi:=read_only_host)
              (js "/skills") (js "demo") = None).
Proof.
  exact (initSkill_reports (H0:=read_only_host)
           (js "demo") (js "/skills") empty_disk).
Defined.

(** X17.  What [initSkill] does to the disk.  The calls that write which it
    attempts are an initial part of the plan, in the plan's order; there are
    none exactly when something has the path of the skill directory
    already, and then the file table is left as it was; and when the
    directory of the skill is returned, the whole plan was carried out. *)
Theorem initSkill_follows_plan `{HostApi} `{ScaffoldApi}
    skillName outputPath d :
  let skillDir := path_resolve_from outputPath skillName in
  ∃ r d' done,
    initSkill skillName outputPath d = (Fulfilled r, d')
    ∧ journal d' = journal d ++ done
    ∧ file_steps done `prefix_of` plan skillName skillDir
    ∧ (file_steps done = [] ↔ is_Some (entries d !! skillDir))
    ∧ (file_steps done = [] → entries d' = entries d)
    ∧ (is_Some r → file_steps done = plan skillName skillDir).
Proof.
  intros skillDir.
  destruct (initSkill_run skillName outputPath d)
    as [[Hdir ->]|(Hdir & res & d1 & Hrun & ->)]; fold skillDir in Hdir.
  - eexists _, _, _. split; [reflexivity|]. cbn [journal entries].
    split; [reflexivity|]. cbn [file_steps List.filter is_file_step].
    split; [apply prefix_nil|]. split; [done|]. split; [done|].
    by intros [? [=]].
  - fold skillDir in Hrun.
    destruct (scaffold_run _ _ _ _ _ Hrun)
      as (done & Hjournal & Hplan & Hhead & _ & Hres).
    assert (file_steps done ≠ []) as Hsome.
    { destruct done as [|s done]; [done|]. injection Hhead as ->. done. }
    assert (¬ is_Some (entries d !! skillDir)) as Hfree
      by (rewrite Hdir; by intros [? [=]]).
    destruct res as [r|e].
    + destruct Hres as [-> Hall]. eexists _, _, done.
      split; [reflexivity|]. split; [done|]. split; [done|].
      split; [done|]. split; done.
    + eexists _, _, (done ++ [_]). split; [reflexivity|]. cbn [journal].
      split; [by rewrite Hjournal, <-app_assoc|].
      rewrite file_steps_app. cbn [file_steps List.filter is_file_step].
      rewrite app_nil_r. split; [done|]. split; [done|]. split; [done|].
      by intros [? [=]].
Qed.

Lemma initSkill_follows_plan_witness :
  ∃ r d' done,
    initSkill (js "demo") (js "/skills") empty_disk = (Fulfilled r, d')
    ∧ journal d' = journal empty_disk ++ done
    ∧ file_steps done
      `prefix_of` plan (js "demo")
                    (path_resolve_from (js "/skills") (js "demo"))
    ∧ (file_steps done = []
       ↔ is_Some (entries empty_disk
                  !! path_resolve_from (js "/skills") (js "demo")))
    ∧ (file_steps done = [] → entries d' = entries empty_disk)
    ∧ (is_Some r
       → file_steps done
         = plan (js "demo") (path_resolve_from (js "/skills") (js "demo"))).
Proof.
  exact (initSkill_follows_plan (js "demo") (js "/skills") empty_disk).
Defined.

(** *** The command line of the scaffolder *)

(** Arguments other than the flag only set the name, and only while it is
    falsy. *)
Lemma parse_args_words words rest skillName outputPath :
  (js "--path" ∉ words) →
  parse_args (words ++ rest) skillName outputPath
  = parse_args rest
      (foldl (λ name arg, if falsy name then Some arg else name)
         skillName words)
      outputPath.
Proof.
  revert skillName. induction words as [|arg words IH]; intros skillName Hnot;
    [done|].
  cbn [app parse_args foldl].
  rewrite bool_decide_false by (intros ->; apply Hnot; left).
  assert (js "--path" ∉ words) as Hrest by (intros Hin; apply Hnot; by right).
  destruct (falsy skillName); by rewrite IH.
Qed.

Lemma first_truthy_kept words (name : list N) :
  name ≠ [] →
  foldl (λ name arg, if falsy name then Some arg else name) (Some name) words
  = Some name.
Proof.
  intros Hname. induction words as [|arg words IH]; [done|].
  cbn [foldl]. by destruct name.
Qed.

Lemma first_truthy_found words skillName (name : list N) :
  falsy skillName = true →
  head (filter (λ arg, arg ≠ []) words) = Some name →
  foldl (λ name arg, if falsy name then Some arg else name) skillName words
  = Some name.
Proof.
  revert skillName. induction words as [|arg words IH];
    intros skillName Hfalsy; [done|].
  cbn [foldl]. rewrite Hfalsy. rewrite filter_cons.
  destruct (decide (arg ≠ [])) as [Harg|Harg].
  - intros [= ->]. by apply first_truthy_kept.
  - apply dec_stable in Harg as ->. by apply IH.
Qed.

(** X18.  Where the flag stands does not matter.  When [--path] occurs
    once and has a value, that value is the output path, whatever it is,
    and the name is the first non-empty one of the other arguments, before
    or after the flag. *)
Theorem parse_args_flag_anywhere before value after name :
  (js "--path" ∉ before) → (js "--path" ∉ after) →
  head (filter (λ arg, arg ≠ []) (before ++ after)) = Some name →
  parse_args (before ++ js "--path" :: value :: after) None None
  = (Some name, Some value).
Proof.
  intros Hbefore Hafter Hname.
  rewrite (parse_args_words _ _ _ _ Hbefore). cbn [parse_args].
  rewrite bool_decide_true by done.
  rewrite <-(app_nil_r after), (parse_args_words _ _ _ _ Hafter).
  cbn [parse_args]. rewrite <-foldl_app. f_equal.
  by apply first_truthy_found.
Qed.

Lemma parse_args_flag_anywhere_witness :
  parse_args
    ([[]] ++ js "--path" :: js "--path" :: [js "my-skill"; js "other"])
    None None
  = (Some (js "my-skill"), Some (js "--path")).
Proof.
  apply (parse_args_flag_anywhere [[]] (js "--path")
           [js "my-skill"; js "other"] (js "my-skill")).
  - by_evaluation.
  - by_evaluation.
  - vm_compute. reflexivity.
Defined.

Lemma usage_run d :
  ∃ lines,
    usage d = (Fulfilled tt, Disk (entries d) (journal d ++ (Log <$> lines)))
    ∧ head lines
      = Some (js "Usage: node init_skill.js <skill-name> --path <path>").
Proof.
  destruct (usage d) as [r d'] eqn:Hrun. unfold usage, log in Hrun.
  rewrite !task_bind_record in Hrun. unfold record in Hrun.
  cbn [entries journal] in Hrun. rewrite <-!app_assoc in Hrun.
  cbn [app] in Hrun. injection Hrun as <- <-.
  eexists [_; _; _; _; _; _; _; _; _]. split; reflexivity.
Qed.

(** X19.  Without an output path nothing is made.  When [--path] does not
    occur among the arguments, or occurs only as the last of them, [main]
    prints the usage text on [console.log], touches no file and exits with
    status 1, whatever names were given. *)
Theorem init_main_needs_path `{HostApi} `{ScaffoldApi} args d :
  (js "--path" ∉ take (length args - 1) args) →
  ∃ lines,
    InitSkill.main args d
    = (Fulfilled 1%N, Disk (entries d) (journal d ++ (Log <$> lines)))
    ∧ head lines
      = Some (js "Usage: node init_skill.js <skill-name> --path <path>").
Proof.
  intros Hflag. unfold InitSkill.main.
  assert (∃ name, parse_args args None None = (name, None)) as [name ->].
  { rewrite <-(take_drop (length args - 1) args).
    rewrite (parse_args_words _ _ _ _ Hflag).
    assert (length (drop (length args - 1) args) ≤ 1) as Hshort
      by (rewrite length_drop; lia).
    destruct (drop (length args - 1) args) as [|arg [|? ?]];
      [by eexists| |cbn in Hshort; lia].
    cbn [parse_args]. repeat case_match; by eexists. }
  rewrite orb_true_r. unfold task_bind at 1.
  destruct (usage_run d) as (lines & -> & Hhead). by exists lines.
Qed.

Lemma init_main_needs_path_witness :
  ∃ lines,
    InitSkill.main [js "my-skill"; js "--path"] empty_disk
    = (Fulfilled 1%N,
       Disk (entries empty_disk) (journal empty_disk ++ (Log <$> lines)))
    ∧ head lines
      = Some (js "Usage: node init_skill.js <skill-name> --path <path>").
Proof.
  apply (init_main_needs_path [js "my-skill"; js "--path"] empty_disk).
  by_evaluation.
Defined.

(** X20.  The exit status of [main] in [init_skill.js].  [main] never
    rejects and exits with 0 or 1.  It exits with 0 only when the arguments
    gave a non-empty name and a non-empty output path and every call of
    the plan for them was carried out; and when name or path is missing it
    attempts no call that writes. *)
Theorem init_main_exit `{HostApi} `{ScaffoldApi} args d :
  ∃ code d' done,
    InitSkill.main args d = (Fulfilled code, d')
    ∧ journal d' = journal d ++ done
    ∧ (code = 0%N ∨ code = 1%N)
    ∧ (code = 0%N →
       ∃ skillName outputPath,
         parse_args args None None = (Some skillName, Some outputPath)
         ∧ skillName ≠ [] ∧ outputPath ≠ []
         ∧ file_steps done
           = plan skillName (path_resolve_from outputPath skillName))
    ∧ (falsy (parse_args args None None).1
       || falsy (parse_args args None None).2 = true →
       code = 1%N ∧ file_steps done = [] ∧ entries d' = entries d).
Proof.
  unfold InitSkill.main.
  destruct (parse_args args None None) as [name path] eqn:Hparse.
  cbn [fst snd]. destruct (falsy name || falsy path) eqn:Hfalsy.
  { unfold task_bind at 1.
    destruct (usage_run d) as (lines & -> & Hhead).
    exists 1%N. eexists _, _. split; [reflexivity|]. cbn [journal entries].
    split; [reflexivity|]. split; [by right|]. split; [done|].
    intros _. split; [done|]. split; [|done].
    clear. induction lines as [|line lines IH]; [done|]. apply IH. }
  apply orb_false_iff in Hfalsy as [Hname Hpath].
  destruct name as [[|c name]|]; try done.
  destruct path as [[|c' path]|]; try done.
  cbn [default id]. unfold log. rewrite !task_bind_record.
  cbn [entries journal]. rewrite <-app_assoc. cbn [app].
  set (skillName := c :: name). set (outputPath := c' :: path).
  match goal with
  | |- context [task_bind _ _ ?d0] => set (banner := d0)
  end.
  unfold task_bind at 1.
  destruct (initSkill_run skillName outputPath banner)
    as [[Hdir ->]|(Hdir & res & d1 & Hrun & ->)].
  { exists 1%N. eexists _, _. cbn [truthy task_ret].
    split; [reflexivity|]. cbn [journal banner].
    split; [by rewrite <-app_assoc|]. split; [by right|]. split; done. }
  destruct (scaffold_run _ _ _ _ _ Hrun)
    as (done & Hjournal & _ & _ & _ & Hres).
  destruct res as [r|e].
  - destruct Hres as [-> Hall].
    destruct (path_resolve_from outputPath skillName) as [|x dir] eqn:Hdir';
      cbn [truthy task_ret].
    + exists 1%N. eexists _, _. split; [reflexivity|].
      split; [by rewrite Hjournal; cbn [journal banner]; rewrite <-app_assoc|].
      split; [by right|]. split; done.
    + exists 0%N. eexists _, _. split; [reflexivity|].
      split; [by rewrite Hjournal; cbn [journal banner]; rewrite <-app_assoc|].
      split; [by left|]. split; [|done]. intros _.
      exists skillName, outputPath. repeat split; try done.
      rewrite !file_steps_app, Hall, Hdir'.
      by cbn [file_steps List.filter is_file_step app].
  - exists 1%N. eexists _, _. cbn [truthy task_ret].
    split; [reflexivity|]. cbn [journal banner].
    split; [by rewrite Hjournal; cbn [journal banner]; rewrite <-!app_assoc|].
    split; [by right|]. split; done.
Qed.

Lemma init_main_exit_witness :
  ∃ code d' done,
    InitSkill.main [js "--path"; js "/skills"; js "demo"] empty_disk
    = (Fulfilled code, d')
    ∧ journal d' = journal empty_disk ++ done
    ∧ (code = 0%N ∨ code = 1%N)
    ∧ (code = 0%N →
       ∃ skillName outputPath,
         parse_args [js "--path"; js "/skills"; js "demo"] None None
         = (Some skillName, Some outputPath)
         ∧ skillName ≠ [] ∧ outputPath ≠ []
         ∧ file_steps done
           = plan skillName (path_resolve_from outputPath skillName))
    ∧ (falsy (parse_args [js "--path"; js "/skills"; js "demo"] None None).1
       || falsy
            (parse_args [js "--path"; js "/skills"; js "demo"] None None).2
       = true →
       code = 1%N ∧ file_steps done = [] ∧ entries d' = entries empty_disk).
Proof.
  exact (init_main_exit [js "--path"; js "/skills"; js "demo"] empty_disk).
Defined.
